(** * MINERAL-APP: the account subsystem of [utils/auth.py]

    A shallow embedding of the authentication and account-lifecycle code
    ([utils/auth.py], [utils/data_loader.py], [config.py]) and the
    properties of its specification.

    Conventions of the embedding:
    - Python [str] values are Rocq [string]s read as ASCII text; [int]s are
      [Z], loop counters that start at 0 or 1 and only grow are [nat].
    - The two JSON documents ([users.json], [logs.json]), the Flask session,
      the clock and the random source form the [World] that every operation
      threads through the monad [M].
    - [json.load] builds new objects at every call.  The [World] therefore
      has a [heap] of loaded documents: [load_users] allocates one and
      returns its reference, a record is addressed by its document and its
      position, an assignment to a key of a record changes the document
      the record belongs to, and [save_users] writes the document it is
      given.
    - A [datetime] is the number of microseconds since the epoch.  What the
      interpreter's libraries compute ([datetime.isoformat],
      [datetime.fromisoformat], [bcrypt], ...) is an interface, [Platform],
      over which the operations and their theorems are generic. *)

From Stdlib Require Import ZArith List String Ascii Bool Arith Lia.
From Stdlib Require Import DecimalString DecimalZ Finite.
Import ListNotations.

Local Open Scope string_scope.
Local Open Scope Z_scope.

(* ================================================================== *)
(** * Strings as Python uses them *)
(* ================================================================== *)

Module PyStr.

(** [str(n)] for an [int]. *)
Definition str (n : Z) : string := NilEmpty.string_of_int (Z.to_int n).

(** [len(s)] is [String.length]; [s[:k]] *)
Definition take (k : nat) (s : string) : string :=
  string_of_list_ascii (firstn k (list_ascii_of_string s)).

(** The last [k] characters, [s[-k:]], and what precedes them, [s[:-k]]
    (for [k <= len(s)]). *)
Definition trailing (k : nat) (s : string) : string :=
  string_of_list_ascii
    (skipn (String.length s - k) (list_ascii_of_string s)).

Definition preceding (k : nat) (s : string) : string :=
  string_of_list_ascii
    (firstn (String.length s - k) (list_ascii_of_string s)).

(** [f"{n:0wd}"] for a non-negative [n]: zeros on the left up to width
    [w]. *)
Fixpoint zeros (k : nat) : string :=
  match k with
  | O => ""
  | S k' => String "0" (zeros k')
  end.

Definition zfill (w : nat) (s : string) : string :=
  zeros (w - String.length s) ++ s.

(** [sum(ord(c) for c in s)] *)
Fixpoint sum_ord (s : string) : Z :=
  match s with
  | EmptyString => 0
  | String c s' => Z.of_nat (nat_of_ascii c) + sum_ord s'
  end.

(** The character classes and the case mappings are those of ASCII, on
    which they are Python's.  On other characters Python follows the
    Unicode tables, which the embedding does not have. *)
Definition is_upper (c : ascii) : bool :=
  let n := nat_of_ascii c in ((65 <=? n) && (n <=? 90))%nat.
Definition is_lower (c : ascii) : bool :=
  let n := nat_of_ascii c in ((97 <=? n) && (n <=? 122))%nat.
Definition is_digit (c : ascii) : bool :=
  let n := nat_of_ascii c in ((48 <=? n) && (n <=? 57))%nat.

(** [ch.isalnum()] *)
Definition isalnum (c : ascii) : bool :=
  is_upper c || is_lower c || is_digit c.

Definition upper_char (c : ascii) : ascii :=
  if is_lower c then ascii_of_nat (nat_of_ascii c - 32) else c.
Definition lower_char (c : ascii) : ascii :=
  if is_upper c then ascii_of_nat (nat_of_ascii c + 32) else c.

Fixpoint map_chars (f : ascii -> ascii) (s : string) : string :=
  match s with
  | EmptyString => EmptyString
  | String c s' => String (f c) (map_chars f s')
  end.

(** [s.upper()], [s.lower()] *)
Definition upper : string -> string := map_chars upper_char.
Definition lower : string -> string := map_chars lower_char.

(** [''.join(ch for ch in s if p(ch))] *)
Fixpoint filter_chars (p : ascii -> bool) (s : string) : string :=
  match s with
  | EmptyString => EmptyString
  | String c s' =>
      if p c then String c (filter_chars p s') else filter_chars p s'
  end.

(** [s.replace(c, "")] for a one-character [c]. *)
Definition remove_char (c : ascii) : string -> string :=
  filter_chars (fun x => negb (Ascii.eqb x c)).

(** Truth value of a [str]: only the empty string is false. *)
Definition truthy (s : string) : bool :=
  match s with
  | EmptyString => false
  | String _ _ => true
  end.

(** Every character of [s] satisfies [p]. *)
Fixpoint all_chars (p : ascii -> bool) (s : string) : bool :=
  match s with
  | EmptyString => true
  | String c s' => p c && all_chars p s'
  end.

(** [s.isascii()]: every character is below 128. *)
Definition isascii (s : string) : bool :=
  all_chars (fun c => (nat_of_ascii c <? 128)%nat) s.

End PyStr.
Import PyStr.

(* ================================================================== *)
(** * [config.py] *)
(* ================================================================== *)

Module config.
Definition PASSWORD_RESET_SALT : string := "password-reset-salt".
Definition PASSWORD_RESET_EXP_SECONDS : Z := 3600.
Definition MAX_FAILED_LOGIN : Z := 5.
Definition LOCKOUT_SECONDS : Z := 15 * 60.
Definition USER_ID_PREFIX : string := "MINN".
End config.

(* ================================================================== *)
(** * Data model *)
(* ================================================================== *)

(** A user record of [users.json], with the keys [create_user] writes. *)
Record User := mkUser {
  user_id : string;
  username : string;
  first_name : string;
  last_name : string;
  email : string;
  country : string;
  organization : string;
  role : string;
  password_hash : string;
  created_at : string;
  failed_logins : Z;
  locked_until : option string
}.

Definition set_failed_logins (n : Z) (u : User) : User :=
  mkUser (user_id u) (username u) (first_name u) (last_name u) (email u)
         (country u) (organization u) (role u) (password_hash u)
         (created_at u) n (locked_until u).

Definition set_locked_until (l : option string) (u : User) : User :=
  mkUser (user_id u) (username u) (first_name u) (last_name u) (email u)
         (country u) (organization u) (role u) (password_hash u)
         (created_at u) (failed_logins u) l.

Definition set_password_hash (h : string) (u : User) : User :=
  mkUser (user_id u) (username u) (first_name u) (last_name u) (email u)
         (country u) (organization u) (role u) h
         (created_at u) (failed_logins u) (locked_until u).

Inductive Event :=
| user_created | login_success | login_failed | login_blocked
| account_locked | account_unlocked | password_reset.

(** An entry of [logs.json]; a key an event does not write is [None]. *)
Record LogEntry := mkLog {
  timestamp : string;
  event : Event;
  log_user_id : option string;
  log_username : option string;
  log_role : option string;
  reason : option string;
  attempts : option Z;
  ip : option string;
  by_ : option string;
  meta : option (string * string)
}.

(** The Flask session: the three keys [authenticate] sets. *)
Record Session := mkSession {
  sess_username : option string;
  sess_role : option string;
  sess_user_id : option string
}.

Definition empty_session : Session := mkSession None None None.

(** A loaded document is a Python object; [doc_ref] is its identity.
    A record of a loaded document is the object at a position of its
    list. *)
Definition doc_ref := nat.

Record user_ref := mkRef {
  ref_doc : doc_ref;
  ref_pos : nat
}.

(** Everything an operation reads or writes outside its arguments.
    [heap] holds the documents loaded so far, in the order of their
    allocation.  [clock] and [entropy] are the successive answers of the
    system clock (microseconds since the epoch) and of the random source;
    the two cursors count the answers consumed so far. *)
Record World := mkWorld {
  users_file : list User;
  logs_file : list LogEntry;
  session : Session;
  heap : list (list User);
  clock : nat -> Z;
  clock_reads : nat;
  entropy : nat -> Z;
  entropy_reads : nat
}.

(** What [nth] answers outside a list; no operation reads it. *)
Definition blank_user : User :=
  mkUser "" "" "" "" "" "" "" "" "" "" 0 None.

(** [l[i] = f(l[i])] *)
Fixpoint update_nth {A} (i : nat) (f : A -> A) (l : list A) : list A :=
  match l, i with
  | [], _ => []
  | x :: l', O => f x :: l'
  | x :: l', S i' => x :: update_nth i' f l'
  end.

(** The record a reference addresses, and the heap after an assignment
    to that record. *)
Definition deref (r : user_ref) (h : list (list User)) : User :=
  nth (ref_pos r) (nth (ref_doc r) h []) blank_user.

Definition assign (r : user_ref) (f : User -> User) (h : list (list User))
  : list (list User) :=
  update_nth (ref_doc r) (update_nth (ref_pos r) f) h.

(** A reference that addresses a record of the heap. *)
Definition valid_ref (r : user_ref) (h : list (list User)) : Prop :=
  (ref_doc r < List.length h)%nat /\
  (ref_pos r < List.length (nth (ref_doc r) h []))%nat.

(* ================================================================== *)
(** * The monad of operations *)
(* ================================================================== *)

(** The exceptions that leave the account code uncaught: the
    [TypeError] of a comparison between an offset-aware and a naive
    [datetime], and the [ValueError] of [bcrypt]. *)
Inductive exn := TypeError | ValueError.

(** An operation returns, raises, or is cut off after the number of loop
    iterations it was allowed ([OutOfFuel]). *)
Inductive result (A : Type) : Type :=
| Ret (a : A)
| Raise (e : exn)
| OutOfFuel.
Arguments Ret {A} a.
Arguments Raise {A} e.
Arguments OutOfFuel {A}.

Definition M (A : Type) : Type := World -> result A * World.

Definition ret {A} (a : A) : M A := fun w => (Ret a, w).

Definition bind {A B} (m : M A) (k : A -> M B) : M B :=
  fun w =>
    match m w with
    | (Ret a, w') => k a w'
    | (Raise e, w') => (Raise e, w')
    | (OutOfFuel, w') => (OutOfFuel, w')
    end.

Definition raise {A} (e : exn) : M A := fun w => (Raise e, w).
Definition out_of_fuel {A} : M A := fun w => (OutOfFuel, w).

Declare Scope auth_scope.
Delimit Scope auth_scope with auth.
Notation "x <- m ;; k" := (bind m (fun x => k))
  (at level 100, m at next level, right associativity) : auth_scope.
Notation "m ;;; k" := (bind m (fun _ => k))
  (at level 100, right associativity) : auth_scope.
Local Open Scope auth_scope.

(** ** [utils/data_loader.py] and the other primitives *)

(** [load_users()]: [json.load] allocates a new document holding the
    content of the file. *)
Definition load_users : M doc_ref :=
  fun w => (Ret (List.length (heap w)),
            mkWorld (users_file w) (logs_file w) (session w)
                    (heap w ++ [users_file w])
                    (clock w) (clock_reads w) (entropy w) (entropy_reads w)).

(** [data.get("users", [])]: the records of a loaded document, as they
    are now. *)
Definition users_of (data : doc_ref) : M (list User) :=
  fun w => (Ret (nth data (heap w) []), w).

(** Reading a record through its reference. *)
Definition get_user (r : user_ref) : M User :=
  fun w => (Ret (deref r (heap w)), w).

(** [user[key] = value]: the record changes inside its document. *)
Definition set_user (r : user_ref) (f : User -> User) : M unit :=
  fun w => (Ret tt,
            mkWorld (users_file w) (logs_file w) (session w)
                    (assign r f (heap w))
                    (clock w) (clock_reads w) (entropy w) (entropy_reads w)).

(** [users.append(new_user)] on the list of a loaded document. *)
Definition append_user (data : doc_ref) (u : User) : M unit :=
  fun w => (Ret tt,
            mkWorld (users_file w) (logs_file w) (session w)
                    (update_nth data (fun l => (l ++ [u])%list) (heap w))
                    (clock w) (clock_reads w) (entropy w) (entropy_reads w)).

(** [save_users(data)]: the file is replaced in full by the document. *)
Definition save_users (data : doc_ref) : M unit :=
  fun w => (Ret tt,
            mkWorld (nth data (heap w) []) (logs_file w) (session w)
                    (heap w)
                    (clock w) (clock_reads w) (entropy w) (entropy_reads w)).

(** [append_log(entry)] *)
Definition append_log (entry : LogEntry) : M unit :=
  fun w => (Ret tt,
            mkWorld (users_file w) (logs_file w ++ [entry]) (session w)
                    (heap w)
                    (clock w) (clock_reads w) (entropy w) (entropy_reads w)).

Definition set_session (s : Session) : M unit :=
  fun w => (Ret tt,
            mkWorld (users_file w) (logs_file w) s (heap w)
                    (clock w) (clock_reads w) (entropy w) (entropy_reads w)).

Definition get_session : M Session := fun w => (Ret (session w), w).

(** [datetime.utcnow()] *)
Definition utcnow : M Z :=
  fun w => (Ret (clock w (clock_reads w)),
            mkWorld (users_file w) (logs_file w) (session w) (heap w)
                    (clock w) (S (clock_reads w))
                    (entropy w) (entropy_reads w)).

(** [int(time.time())]: the same clock, in whole seconds. *)
Definition time_time : M Z :=
  t <- utcnow ;; ret (t / 1000000).

(** One answer of the random source. *)
Definition draw : M Z :=
  fun w => (Ret (entropy w (entropy_reads w)),
            mkWorld (users_file w) (logs_file w) (session w) (heap w)
                    (clock w) (clock_reads w)
                    (entropy w) (S (entropy_reads w))).

(** [secrets.randbelow(n)] *)
Definition randbelow (n : Z) : M Z :=
  e <- draw ;; ret (e mod n).

(* ================================================================== *)
(** * The libraries under the code *)
(* ================================================================== *)

(** What [datetime.fromisoformat] answers: a [ValueError], a naive
    datetime, or one that carries a UTC offset. *)
Inductive parsed_datetime :=
| ParseError
| Naive (t : Z)
| Aware (t : Z).

(** The library functions the account code calls.
    - [isoformat d] is [d.isoformat()], [strftime_yymmdd d] is
      [d.strftime("%y%m%d")];
    - [posix_timestamp d] is [d.timestamp()] of a naive [d], which Python
      reads in the local time zone of the process (the identity when that
      zone is UTC); [datetime.utcfromtimestamp] is then the identity;
    - [bcrypt_hashpw plain salt] is [bcrypt.hashpw] with the salt that
      [bcrypt.gensalt()] derives from one answer of the random source,
      and [bcrypt_checkpw plain hashed] is [bcrypt.checkpw]; both answer
      [None] where [bcrypt] raises [ValueError]: for a password it does
      not take (one of more than 72 bytes, from [bcrypt] 5.0 on) and,
      in [checkpw], for a stored string that is not a [bcrypt] hash
      ("Invalid salt").
    Times are exact: the rounding of the [float] that [timestamp()]
    returns is below the microsecond for present-day dates. *)
Class Platform := {
  isoformat : Z -> string;
  fromisoformat : string -> parsed_datetime;
  strftime_yymmdd : Z -> string;
  posix_timestamp : Z -> Z;
  bcrypt_hashpw : string -> Z -> option string;
  bcrypt_checkpw : string -> string -> option bool
}.

Section Auth.
Context {P : Platform}.

(* ================================================================== *)
(** * Identity generation *)
(* ================================================================== *)

(** [any(u.get("user_id") == user_id for u in users)] *)
Definition user_id_taken (users : list User) (uid : string) : bool :=
  existsb (fun u => String.eqb (user_id u) uid) users.

(** The candidate of one iteration:
    [core = f"{PREFIX}{base_date}{initials}{rand4:04d}"]. *)
Definition core_of (base_date initials : string) (rand4 : Z) : string :=
  config.USER_ID_PREFIX ++ base_date ++ initials ++ zfill 4 (str rand4).

Definition checksum_of (core : string) : Z := sum_ord core mod 97.

(** [f"{core}{checksum:02d}"] *)
Definition with_checksum (core : string) : string :=
  core ++ zfill 2 (str (checksum_of core)).

(** [f"{core}{int(time.time())%10000}"] *)
Definition with_time (core : string) (seconds : Z) : string :=
  core ++ str (seconds mod 10000).

(** The [while True] loop of [generate_user_id]; [attempt] is its
    counter.  [fuel] bounds the iterations the embedding follows. *)
Fixpoint generate_user_id_loop (fuel : nat) (users : list User)
    (base_date initials : string) (attempt : nat) : M string :=
  match fuel with
  | O => out_of_fuel
  | S fuel' =>
      rand4 <- randbelow 10000 ;;
      let core := core_of base_date initials rand4 in
      let uid := with_checksum core in
      if negb (user_id_taken users uid) then ret uid
      else
        let attempt := S attempt in
        if (50 <? attempt)%nat then
          (* fallback - add timestamp *)
          now_s <- time_time ;;
          let uid := with_time core now_s in
          if negb (user_id_taken users uid) then ret uid
          else generate_user_id_loop fuel' users base_date initials attempt
        else generate_user_id_loop fuel' users base_date initials attempt
  end.

Definition generate_user_id (fuel : nat)
    (first_name last_name country : string) : M string :=
  data <- load_users ;;
  users <- users_of data ;;
  today <- utcnow ;;
  let base_date := strftime_yymmdd today in
  let initials := upper (take 1 first_name ++ take 1 last_name) in
  generate_user_id_loop fuel users base_date initials 0.

(** [username in existing], with [existing = {u["username"] for u in users}] *)
Definition username_taken (users : list User) (name : string) : bool :=
  existsb (fun u => String.eqb (username u) name) users.

(** The [while username in existing] loop of [generate_username]. *)
Fixpoint generate_username_loop (fuel : nat) (users : list User)
    (base : string) (uname : string) (suffix : nat) : M string :=
  if negb (username_taken users uname) then ret uname
  else
    match fuel with
    | O => out_of_fuel
    | S fuel' =>
        generate_username_loop fuel' users base
          (base ++ str (Z.of_nat suffix)) (S suffix)
    end.

Definition username_base (first_name last_name country org : string)
  : string :=
  let fn := filter_chars isalnum (lower first_name) in
  let ln := filter_chars isalnum (lower last_name) in
  let cc := take 3 (filter_chars isalnum (lower country)) in
  let orgshort :=
    if truthy org then take 3 (filter_chars isalnum (lower org)) else "" in
  fn ++ "." ++ ln ++ "." ++ cc ++
  (if truthy orgshort then "." ++ orgshort else "").

Definition generate_username (fuel : nat)
    (first_name last_name country org : string) : M string :=
  data <- load_users ;;
  users <- users_of data ;;
  let base := username_base first_name last_name country org in
  generate_username_loop fuel users base base 1.

(* ================================================================== *)
(** * Password helpers and user management *)
(* ================================================================== *)

(** [bcrypt.gensalt()] is evaluated before [bcrypt.hashpw] is called;
    no [try] surrounds either helper. *)
Definition hash_password (plain : string) : M string :=
  salt <- draw ;;
  match bcrypt_hashpw plain salt with
  | Some hashed => ret hashed
  | None => raise ValueError
  end.

Definition check_password (plain hashed : string) : M bool :=
  match bcrypt_checkpw plain hashed with
  | Some ok => ret ok
  | None => raise ValueError
  end.

Definition create_user (fuel : nat)
    (first_name last_name email country org role password : string)
  : M User :=
  data <- load_users ;;
  uid <- generate_user_id fuel first_name last_name country ;;
  uname <- generate_username fuel first_name last_name country org ;;
  pw_hash <- hash_password password ;;
  t <- utcnow ;;
  let created_at := isoformat t ++ "Z" in
  let new_user :=
    mkUser uid uname first_name last_name email country org role
           pw_hash created_at 0 None in
  append_user data new_user ;;;
  save_users data ;;;
  append_log (mkLog created_at user_created (Some uid) (Some uname)
                    (Some role) None None None None
                    (Some (email, country))) ;;;
  ret new_user.

(** The position of the first record that satisfies [p]: where a
    [for u in users: if p(u): ...] loop stops. *)
Fixpoint find_index (p : User -> bool) (users : list User) : option nat :=
  match users with
  | [] => None
  | u :: rest =>
      if p u then Some O else option_map S (find_index p rest)
  end.

Definition has_username (uname : string) (u : User) : bool :=
  String.eqb (username u) uname.

Definition same_email (e : string) (u : User) : bool :=
  String.eqb (lower (email u)) (lower e).

(** The record returned is an object of the document this function
    loads itself. *)
Definition find_user_by_username (uname : string) : M (option user_ref) :=
  data <- load_users ;;
  users <- users_of data ;;
  ret (option_map (mkRef data) (find_index (has_username uname) users)).

Definition find_user_by_email (e : string) : M (option user_ref) :=
  data <- load_users ;;
  users <- users_of data ;;
  ret (option_map (mkRef data) (find_index (same_email e) users)).

(* ================================================================== *)
(** * Authentication and lockout *)
(* ================================================================== *)

Definition msg_invalid : string := "Invalid credentials.".
Definition msg_locked (until : string) : string :=
  "Account locked until " ++ until ++ " UTC.".
Definition msg_too_many (until : string) : string :=
  "Too many failed attempts. Account locked until " ++ until ++ " UTC.".

(** [f"{x}"] of a value that is a [str] or [None]. *)
Definition fmt_opt (x : option string) : string :=
  match x with
  | Some s => s
  | None => "None"
  end.

Definition log_no_user (now uname : string) (remote_ip : option string)
  : LogEntry :=
  mkLog now login_failed None (Some uname) None (Some "no_user") None
        remote_ip None None.

Definition log_blocked (now : string) (u : User) (remote_ip : option string)
  : LogEntry :=
  mkLog now login_blocked (Some (user_id u)) None None (Some "locked") None
        remote_ip None None.

Definition log_success (now : string) (u : User) (remote_ip : option string)
  : LogEntry :=
  mkLog now login_success (Some (user_id u)) (Some (username u)) None None
        None remote_ip None None.

Definition log_locked (now : string) (u : User) (remote_ip : option string)
  : LogEntry :=
  mkLog now account_locked (Some (user_id u)) (Some (username u)) None None
        None remote_ip None None.

Definition log_failed (now : string) (u : User) (remote_ip : option string)
  : LogEntry :=
  mkLog now login_failed (Some (user_id u)) (Some (username u)) None None
        (Some (failed_logins u)) remote_ip None None.

(** The lockout check of [authenticate]: [true] when the account is
    inside its lockout window.  The [try] covers the parse only; the
    comparison of an offset-aware datetime with the naive
    [datetime.utcnow()] is outside it and raises. *)
Definition lockout_check (user : user_ref) : M bool :=
  u <- get_user user ;;
  match locked_until u with
  | None => ret false
  | Some lu =>
      if truthy lu then
        match fromisoformat (remove_char "Z" lu) with
        | ParseError => ret false
        | Naive locked_ts =>
            t <- utcnow ;; ret (t <? locked_ts)
        | Aware _ =>
            utcnow ;;; raise TypeError
        end
      else ret false
  end.

(** The password branch of [authenticate].  [data] is the document
    loaded at the top of [authenticate], [user] the record that
    [find_user_by_username] returned. *)
Definition check_credentials (data : doc_ref) (user : user_ref)
    (password now : string) (remote_ip : option string)
  : M (bool * string) :=
  u <- get_user user ;;
  ok <- check_password password (password_hash u) ;;
  if ok then
    (* reset failed attempts *)
    set_user user (set_failed_logins 0) ;;;
    set_user user (set_locked_until None) ;;;
    save_users data ;;;
    u <- get_user user ;;
    set_session (mkSession (Some (username u)) (Some (role u))
                           (Some (user_id u))) ;;;
    append_log (log_success now u remote_ip) ;;;
    ret (true, "Authenticated")
  else
    (* increment failed *)
    set_user user (fun u => set_failed_logins (failed_logins u + 1) u) ;;;
    u <- get_user user ;;
    (if config.MAX_FAILED_LOGIN <=? failed_logins u then
       (* lock account *)
       t <- utcnow ;;
       let lock_until := posix_timestamp t
                         + config.LOCKOUT_SECONDS * 1000000 in
       set_user user (set_locked_until (Some (isoformat lock_until ++ "Z"))) ;;;
       u <- get_user user ;;
       append_log (log_locked now u remote_ip)
     else
       append_log (log_failed now u remote_ip)) ;;;
    save_users data ;;;
    u <- get_user user ;;
    if config.MAX_FAILED_LOGIN <=? failed_logins u then
      ret (false, msg_too_many (fmt_opt (locked_until u)))
    else ret (false, msg_invalid).

Definition authenticate (uname password : string)
    (remote_ip : option string) : M (bool * string) :=
  data <- load_users ;;
  found <- find_user_by_username uname ;;
  t <- utcnow ;;
  let now := isoformat t ++ "Z" in
  match found with
  | None =>
      append_log (log_no_user now uname remote_ip) ;;;
      ret (false, msg_invalid)
  | Some user =>
      locked <- lockout_check user ;;
      if locked then
        u <- get_user user ;;
        append_log (log_blocked now u remote_ip) ;;;
        ret (false, msg_locked (fmt_opt (locked_until u)))
      else check_credentials data user password now remote_ip
  end.

(** [reset_password] and [unlock_account] walk the list of the document
    they loaded: the record they change is an object of the document
    they save. *)
Definition reset_password (e new_password : string) : M bool :=
  data <- load_users ;;
  users <- users_of data ;;
  match find_index (same_email e) users with
  | None => ret false
  | Some i =>
      let u := mkRef data i in
      h <- hash_password new_password ;;
      set_user u (set_password_hash h) ;;;
      set_user u (set_failed_logins 0) ;;;
      set_user u (set_locked_until None) ;;;
      save_users data ;;;
      t <- utcnow ;;
      found <- get_user u ;;
      append_log (mkLog (isoformat t ++ "Z") password_reset
                        (Some (user_id found)) (Some (username found))
                        None None None None None None) ;;;
      ret true
  end.

Definition unlock_account (uid : string) : M bool :=
  data <- load_users ;;
  users <- users_of data ;;
  match find_index (fun u => String.eqb (user_id u) uid) users with
  | None => ret false
  | Some i =>
      let u := mkRef data i in
      set_user u (set_failed_logins 0) ;;;
      set_user u (set_locked_until None) ;;;
      save_users data ;;;
      t <- utcnow ;;
      append_log (mkLog (isoformat t ++ "Z") account_unlocked
                        (Some uid) None None None None None
                        (Some "admin") None) ;;;
      ret true
  end.

End Auth.

(* ================================================================== *)
(** * Password-reset tokens *)
(* ================================================================== *)

Module Serializer.

(** The three parts of a token string: the payload, the issuance time in
    seconds and the signature over both. *)
Record Token := mkToken {
  payload : string;
  issued : Z;
  signature : string
}.

Inductive load_error := SignatureExpired | BadSignature.

Section Signed.
(** The keyed signature: secret key, purpose salt, payload and issuance
    time. *)
Variable sign : string -> string -> string -> Z -> string.

(** Modelled from the spec: [URLSafeTimedSerializer.dumps] of the
    [itsdangerous] package, which is not part of the repository's sources.
    The token is a signed, self-contained capsule of the payload and the
    issuance time; the signature is keyed by the server secret and the
    purpose salt. *)
Definition dumps (key salt data : string) : M Token :=
  t <- time_time ;;
  ret (mkToken data t (sign key salt data t)).

(** Modelled from the spec: [URLSafeTimedSerializer.loads] of the
    [itsdangerous] package, which is not part of the repository's sources.
    The payload is returned only if the signature matches and the age is
    at most [max_age]; the two failures are the exceptions [BadSignature]
    and [SignatureExpired]. *)
Definition loads (key salt : string) (max_age : Z) (token : Token)
  : M (string + load_error) :=
  if String.eqb (signature token)
                (sign key salt (payload token) (issued token))
  then
    now_s <- time_time ;;
    if now_s - issued token <=? max_age then ret (inl (payload token))
    else ret (inr SignatureExpired)
  else ret (inr BadSignature).

(** [config.SECRET_KEY], read from the environment at start-up. *)
Variable SECRET_KEY : string.

Definition generate_reset_token (email : string) : M Token :=
  dumps SECRET_KEY config.PASSWORD_RESET_SALT email.

Definition verify_reset_token (token : Token) (max_age : option Z)
  : M (option string) :=
  let max_age :=
    match max_age with
    | None => config.PASSWORD_RESET_EXP_SECONDS
    | Some m => m
    end in
  r <- loads SECRET_KEY config.PASSWORD_RESET_SALT max_age token ;;
  match r with
  | inl email => ret (Some email)
  | inr SignatureExpired => ret None
  | inr BadSignature => ret None
  end.

End Signed.
End Serializer.

(* ================================================================== *)
(** * A reference platform *)
(* ================================================================== *)

(** The calendar arithmetic of [datetime] for the formats the code
    writes, and a transparent stand-in for [bcrypt]: the "hash" keeps the
    salt and the password in clear, a password of more than 72
    characters is refused, and so is a stored string that does not have
    the shape of a hash.  The examples below run on it. *)
Module Reference.

Definition civil_from_days (z : Z) : Z * Z * Z :=
  let z := z + 719468 in
  let era := z / 146097 in
  let doe := z - era * 146097 in
  let yoe := (doe - doe / 1460 + doe / 36524 - doe / 146096) / 365 in
  let y := yoe + era * 400 in
  let doy := doe - (365 * yoe + yoe / 4 - yoe / 100) in
  let mp := (5 * doy + 2) / 153 in
  let d := doy - (153 * mp + 2) / 5 + 1 in
  let m := if mp <? 10 then mp + 3 else mp - 9 in
  (if m <=? 2 then y + 1 else y, m, d).

Definition days_from_civil (y m d : Z) : Z :=
  let y := if m <=? 2 then y - 1 else y in
  let era := y / 400 in
  let yoe := y - era * 400 in
  let doy := (153 * (if 2 <? m then m - 3 else m + 9) + 2) / 5 + d - 1 in
  let doe := yoe * 365 + yoe / 4 - yoe / 100 + doy in
  era * 146097 + doe - 719468.

Definition two (n : Z) : string := zfill 2 (str n).

Definition isoformat (t : Z) : string :=
  let secs := t / 1000000 in
  let us := t mod 1000000 in
  let '(y, m, d) := civil_from_days (secs / 86400) in
  let sod := secs mod 86400 in
  zfill 4 (str y) ++ "-" ++ two m ++ "-" ++ two d ++ "T" ++
  two (sod / 3600) ++ ":" ++ two (sod mod 3600 / 60) ++ ":" ++
  two (sod mod 60) ++
  (if us =? 0 then "" else "." ++ zfill 6 (str us)).

Definition strftime_yymmdd (t : Z) : string :=
  let '(y, m, d) := civil_from_days (t / 1000000 / 86400) in
  two (y mod 100) ++ two m ++ two d.

Definition digit_value (c : ascii) : option Z :=
  if is_digit c then Some (Z.of_nat (nat_of_ascii c) - 48) else None.

(** The number written by the first [k] characters, all digits, and the
    rest of the string. *)
Fixpoint number (k : nat) (acc : Z) (s : string) : option (Z * string) :=
  match k with
  | O => Some (acc, s)
  | S k' =>
      match s with
      | EmptyString => None
      | String c s' =>
          match digit_value c with
          | Some v => number k' (10 * acc + v) s'
          | None => None
          end
      end
  end.

Definition expect (c : ascii) (s : string) : option string :=
  match s with
  | String c' s' => if Ascii.eqb c c' then Some s' else None
  | EmptyString => None
  end.

Definition opt_bind {A B} (o : option A) (k : A -> option B) : option B :=
  match o with
  | Some a => k a
  | None => None
  end.

(** [YYYY-MM-DDTHH:MM:SS], then the optional [.ffffff]; what is left is
    returned. *)
Definition date_time (s : string) : option (Z * string) :=
  opt_bind (number 4 0 s) (fun '(y, s) =>
  opt_bind (expect "-" s) (fun s =>
  opt_bind (number 2 0 s) (fun '(m, s) =>
  opt_bind (expect "-" s) (fun s =>
  opt_bind (number 2 0 s) (fun '(d, s) =>
  opt_bind (expect "T" s) (fun s =>
  opt_bind (number 2 0 s) (fun '(hh, s) =>
  opt_bind (expect ":" s) (fun s =>
  opt_bind (number 2 0 s) (fun '(mm, s) =>
  opt_bind (expect ":" s) (fun s =>
  opt_bind (number 2 0 s) (fun '(ss, s) =>
    let secs := days_from_civil y m d * 86400 + hh * 3600 + mm * 60 + ss in
    match expect "." s with
    | Some s' =>
        opt_bind (number 6 0 s') (fun '(us, s) =>
          Some (secs * 1000000 + us, s))
    | None => Some (secs * 1000000, s)
    end))))))))))).

(** The optional offset [+HH:MM] or [-HH:MM], in microseconds. *)
Definition utc_offset (s : string) : option Z :=
  match s with
  | String c s' =>
      opt_bind (number 2 0 s') (fun '(hh, s) =>
      opt_bind (expect ":" s) (fun s =>
      opt_bind (number 2 0 s) (fun '(mm, s) =>
        let off := (hh * 3600 + mm * 60) * 1000000 in
        match s with
        | EmptyString =>
            if Ascii.eqb c "+" then Some off
            else if Ascii.eqb c "-" then Some (- off)
            else None
        | String _ _ => None
        end)))
  | EmptyString => None
  end.

Definition fromisoformat (s : string) : parsed_datetime :=
  match date_time s with
  | None => ParseError
  | Some (t, EmptyString) => Naive t
  | Some (t, rest) =>
      match utc_offset rest with
      | Some off => Aware (t - off)
      | None => ParseError
      end
  end.

Definition bcrypt_takes (plain : string) : bool :=
  (String.length plain <=? 72)%nat.

Definition bcrypt_hashpw (plain : string) (salt : Z) : option string :=
  if bcrypt_takes plain then Some ("$2b$" ++ str salt ++ "$" ++ plain)
  else None.

(** What follows the third ["$"]. *)
Fixpoint after_dollars (k : nat) (s : string) : string :=
  match k, s with
  | O, _ => s
  | S k', String c s' =>
      if Ascii.eqb c "$" then after_dollars k' s' else after_dollars k s'
  | S _, EmptyString => EmptyString
  end.

(** The number of ["$"] in a string; a hash is ["$2b$"], a salt, ["$"]
    and the digest. *)
Fixpoint dollars (s : string) : nat :=
  match s with
  | EmptyString => O
  | String c s' => if Ascii.eqb c "$" then S (dollars s') else dollars s'
  end.

Fixpoint starts_with (p s : string) : bool :=
  match p, s with
  | EmptyString, _ => true
  | String a p', String b s' => Ascii.eqb a b && starts_with p' s'
  | String _ _, EmptyString => false
  end.

Definition is_hash (hashed : string) : bool :=
  starts_with "$2b$" hashed && (3 <=? dollars hashed)%nat.

Definition bcrypt_checkpw (plain hashed : string) : option bool :=
  if bcrypt_takes plain && is_hash hashed
  then Some (String.eqb (after_dollars 3 hashed) plain)
  else None.

Definition platform : Platform :=
  Build_Platform isoformat fromisoformat strftime_yymmdd (fun t => t)
                 bcrypt_hashpw bcrypt_checkpw.

(** A signature that is the signed text itself. *)
Definition sign (key salt data : string) (t : Z) : string :=
  key ++ "/" ++ salt ++ "/" ++ data ++ "/" ++ str t.

End Reference.

(* ================================================================== *)
(** * Properties stated by the specification *)
(* ================================================================== *)

(** The trailing 2 characters are the zero-padded decimal value of the
    sum of the character codes of the preceding string, mod 97. *)
Definition checksum_valid (uid : string) : bool :=
  String.eqb (trailing 2 uid)
             (zfill 2 (str (sum_ord (preceding 2 uid) mod 97))).

(** No two records share a [user_id], a [username], an [email] compared
    case-insensitively. *)
Definition unique_user_ids (users : list User) : Prop :=
  NoDup (map user_id users).
Definition unique_usernames (users : list User) : Prop :=
  NoDup (map username users).
Definition unique_emails (users : list User) : Prop :=
  NoDup (map (fun u => lower (email u)) users).

(** An operation leaves both documents and the session as they were. *)
Definition same_store (w w' : World) : Prop :=
  users_file w' = users_file w /\ logs_file w' = logs_file w /\
  session w' = session w.

(** Where a returned identifier comes from: the checksum branch, or the
    time-stamped fallback, which is only tried once more than 50
    candidates have collided. *)
Inductive user_id_origin (attempt : nat) (w w' : World) (uid : string)
  : Prop :=
| from_checksum (core : string) :
    uid = with_checksum core -> user_id_origin attempt w w' uid
| from_fallback (core : string) (seconds : Z) :
    uid = with_time core seconds ->
    (50 < attempt + (entropy_reads w' - entropy_reads w))%nat ->
    user_id_origin attempt w w' uid.


(** [user] is the record [find_user_by_username] finds for [uname]. *)
Definition known_user (w : World) (uname : string) (user : User) : Prop :=
  find (has_username uname) (users_file w) = Some user.

(** No record has the username [uname]. *)
Definition unknown_user (w : World) (uname : string) : Prop :=
  find (has_username uname) (users_file w) = None.

(** The world after [n] more readings of the clock. *)
Definition tick (n : nat) (w : World) : World :=
  mkWorld (users_file w) (logs_file w) (session w) (heap w)
          (clock w) (n + clock_reads w) (entropy w) (entropy_reads w).

(** The world in which [authenticate] examines the record it found: the
    document [data] and the document of [find_user_by_username] are
    loaded, one after the other, and the clock has been read once. *)
Definition after_lookup (w : World) : World :=
  mkWorld (users_file w) (logs_file w) (session w)
          ((heap w ++ [users_file w]) ++ [users_file w])
          (clock w) (S (clock_reads w)) (entropy w) (entropy_reads w).

(** In that world, the document [data] and the record found at position
    [i] of the other document. *)
Definition data_ref (w : World) : doc_ref := List.length (heap w).
Definition found_ref (w : World) (i : nat) : user_ref :=
  mkRef (S (List.length (heap w))) i.

(** The two states of an account at the lockout check of a call of
    [authenticate] started in [w]: the check reads the clock a second
    time, after the reading that stamps the log entry.
    Locked: [locked_until] is a timestamp strictly in the future.
    Active: [locked_until] is null or a timestamp in the past. *)
Definition locked_in {P : Platform} (w : World) (user : User)
    (until : string) : Prop :=
  locked_until user = Some until /\ until <> "" /\
  exists ts, fromisoformat (remove_char "Z" until) = Naive ts /\
             clock w (S (clock_reads w)) < ts.

Definition active_in {P : Platform} (w : World) (user : User) : Prop :=
  locked_until user = None \/
  exists until ts,
    locked_until user = Some until /\
    fromisoformat (remove_char "Z" until) = Naive ts /\
    ts <= clock w (S (clock_reads w)).

(** The string [authenticate] stamps its log entries with. *)
Definition now_of {P : Platform} (w : World) : string :=
  isoformat (clock w (clock_reads w)) ++ "Z".


(** The names [generate_username] tries, in order: the base, then the
    base with the suffixes 1, 2, ... *)
Definition username_candidate (base : string) (i : nat) : string :=
  match i with
  | O => base
  | S _ => base ++ str (Z.of_nat i)
  end.

(** One sign-up, and a sequence of them. *)
Record Signup := mkSignup {
  su_first_name : string;
  su_last_name : string;
  su_email : string;
  su_country : string;
  su_org : string;
  su_role : string;
  su_password : string
}.

Definition create_signup {P : Platform} (fuel : nat) (r : Signup) : M User :=
  create_user fuel (su_first_name r) (su_last_name r) (su_email r)
              (su_country r) (su_org r) (su_role r) (su_password r).

Fixpoint create_users {P : Platform} (fuel : nat) (reqs : list Signup)
  : M (list User) :=
  match reqs with
  | [] => ret []
  | r :: rest =>
      u <- create_signup fuel r ;;
      us <- create_users fuel rest ;;
      ret (u :: us)
  end.

(** The POST branch of the sign-up route of [app.py], on the form fields
    as the route has them after [strip()]; [None] is the form shown again
    with a message.  The route is the caller of [create_user] that looks
    at the stored addresses. *)
Record Form := mkForm {
  form_first_name : string;
  form_last_name : string;
  form_email : string;
  form_country : string;
  form_organization : string;
  form_role : string;
  form_password : string;
  form_confirm : string
}.

Definition signup {P : Platform} (fuel : nat) (f : Form) : M (option User) :=
  if negb (truthy (form_first_name f) && truthy (form_last_name f) &&
           truthy (form_email f) && truthy (form_country f) &&
           truthy (form_password f))
  then ret None
  else if negb (String.eqb (form_password f) (form_confirm f)) then ret None
  else
    found <- find_user_by_email (form_email f) ;;
    match found with
    | Some _ => ret None
    | None =>
        if String.eqb (form_role f) "Administrator" then ret None
        else
          new_user <- create_user fuel (form_first_name f) (form_last_name f)
                        (form_email f) (form_country f)
                        (form_organization f) (form_role f)
                        (form_password f) ;;
          ret (Some new_user)
    end.

Fixpoint signups {P : Platform} (fuel : nat) (forms : list Form)
  : M (list (option User)) :=
  match forms with
  | [] => ret []
  | f :: rest =>
      r <- signup fuel f ;;
      rs <- signups fuel rest ;;
      ret (r :: rs)
  end.

(* ================================================================== *)
(** * Example worlds *)
(* ================================================================== *)

Module Examples.

(** 2025-01-01T00:00:00 UTC, in microseconds. *)
Definition new_year : Z := 1735689600000000.

(** A clock that stands still and a random source that repeats itself. *)
Definition frozen (t : Z) : nat -> Z := fun _ => t.
Definition stuck (e : Z) : nat -> Z := fun _ => e.

(** A clock that advances by one second at every reading. *)
Definition ticking (t : Z) : nat -> Z :=
  fun n => Z.of_nat n * 1000000 + t.

(** A random source that answers [e], [e + 1], [e + 2], ... *)
Definition counting (e : Z) : nat -> Z :=
  fun n => Z.of_nat n + e.

Definition world (users : list User) (clock entropy : nat -> Z) : World :=
  mkWorld users [] empty_session [] clock 0 entropy 0.

(** The record [create_user] writes for Jane Doe when the random source
    answers 42, with a chosen lockout state. *)
Definition jane (failed : Z) (locked : option string) : User :=
  mkUser "MINN250101JD004270" "jane.doe.sou.min" "Jane" "Doe" "jane@x.com"
         "SouthAfrica" "MINN" "Researcher" "$2b$42$Secret1!"
         "2025-01-01T00:00:00Z" failed locked.

(** A second record, holding the identifier the fallback would produce
    for the same draw in the second 1735689600. *)
Definition john : User :=
  mkUser "MINN250101JD00429600" "john.dean.sou" "John" "Dean" "john@x.com"
         "SouthAfrica" "" "Investor" "$2b$42$Secret2!"
         "2025-01-01T00:00:00Z" 0 None.

(** The sign-ups that produce the two records, and Jane signing up a
    second time with her address in another case. *)
Definition jane_signup : Signup :=
  mkSignup "Jane" "Doe" "jane@x.com" "SouthAfrica" "MINN" "Researcher"
           "Secret1!".
Definition john_signup : Signup :=
  mkSignup "John" "Dean" "john@x.com" "SouthAfrica" "" "Investor"
           "Secret2!".
Definition jane_again : Signup :=
  mkSignup "Jane" "Doe" "Jane@X.com" "SouthAfrica" "MINN" "Researcher"
           "Secret3!".

(** The forms of Jane's two sign-ups. *)
Definition jane_form : Form :=
  mkForm "Jane" "Doe" "jane@x.com" "SouthAfrica" "MINN" "Researcher"
         "Secret1!" "Secret1!".
Definition jane_again_form : Form :=
  mkForm "Jane" "Doe" "Jane@X.com" "SouthAfrica" "MINN" "Researcher"
         "Secret3!" "Secret3!".

Definition one_collision : World :=
  world [jane 0 None] (frozen new_year) (stuck 42).

Definition all_collide : World :=
  world [jane 0 None; john] (frozen new_year) (stuck 42).

Definition empty_world : World :=
  world [] (frozen new_year) (stuck 42).

(** Jane's identifier is in the store and the random source answers 42,
    then 43: the first candidate collides, the second is free. *)
Definition one_retry : World :=
  world [jane 0 None] (frozen new_year) (counting 42).

(** Jane's record with a [password_hash] that is not a [bcrypt] hash
    (the password itself). *)
Definition jane_unhashed (locked : option string) : User :=
  mkUser "MINN250101JD004270" "jane.doe.sou.min" "Jane" "Doe" "jane@x.com"
         "SouthAfrica" "MINN" "Researcher" "Secret1!"
         "2025-01-01T00:00:00Z" 0 locked.

(** A password of 73 characters, one more than [bcrypt] takes. *)
Definition long_password : string :=
  "0123456789012345678901234567890123456789012345678901234567890123456789012".

(** Jane's account in a chosen lockout state, from New Year's midnight
    on. *)
Definition jane_world (failed : Z) (locked : option string) : World :=
  world [jane failed locked] (ticking new_year) (stuck 42).

End Examples.

(* ================================================================== *)
(** * The role decorator and the routes of [app.py] *)
(* ================================================================== *)

(** [s.strip()]: Python's white space among the ASCII characters is
    9 to 13 and 28 to 32. *)
Definition is_space (c : ascii) : bool :=
  let n := nat_of_ascii c in
  (((9 <=? n) && (n <=? 13)) || ((28 <=? n) && (n <=? 32)))%nat.

Fixpoint lstrip (s : string) : string :=
  match s with
  | EmptyString => EmptyString
  | String c s' => if is_space c then lstrip s' else s
  end.

Fixpoint rstrip (s : string) : string :=
  match s with
  | EmptyString => EmptyString
  | String c s' =>
      match rstrip s' with
      | EmptyString => if is_space c then EmptyString else String c EmptyString
      | rest => String c rest
      end
  end.

Definition strip (s : string) : string := rstrip (lstrip s).

Inductive Method := GET | POST.

(** What a route reads of the request: the method, the form and the
    address of the client. *)
Record Request := mkRequest {
  req_method : Method;
  req_form : list (string * string);
  remote_addr : option string
}.

(** [request.form.get(key, default)] *)
Fixpoint form_get (form : list (string * string)) (key default : string)
  : string :=
  match form with
  | [] => default
  | (k, v) :: rest => if String.eqb k key then v else form_get rest key default
  end.

(** What a route answers: [redirect(url_for(endpoint))] or
    [render_template(template, ...)], with the messages it has flashed
    (text and category), in order. *)
Inductive Page :=
| Redirect (endpoint : string)
| Render (template : string).

Record Reply := mkReply {
  flashed : list (string * string);
  page : Page
}.

Definition msg_no_permission : string :=
  "You do not have permission to access this page.".

(** [session.get("role") in allowed] *)
Definition role_allowed (s : Session) (allowed : list string) : bool :=
  match sess_role s with
  | Some r => existsb (String.eqb r) allowed
  | None => false
  end.

(** [requires_role(roles)(f)]: [roles] is one role or a collection of
    roles, [allowed] the list made of it; [f] is the decorated handler. *)
Definition allowed_roles (roles : string + list string) : list string :=
  match roles with
  | inl r => [r]
  | inr rs => rs
  end.

Definition requires_role (roles : string + list string) (f : M Reply)
  : M Reply :=
  let allowed := allowed_roles roles in
  s <- get_session ;;
  match sess_username s with
  | None => ret (mkReply [] (Redirect "login"))
  | Some _ =>
      if negb (role_allowed s allowed) then
        ret (mkReply [(msg_no_permission, "danger")] (Redirect "login"))
      else f
  end.

Section Routes.
Context {P : Platform}.

(** [create_initial_admin()], without what it prints. *)
Definition create_initial_admin (fuel : nat) : M unit :=
  data <- load_users ;;
  users <- users_of data ;;
  if negb (existsb (fun u => String.eqb (role u) "Administrator") users) then
    create_user fuel "System" "Admin" "admin@example.com" "SouthAfrica"
                "MINN" "Administrator" "Admin@1234" ;;;
    ret tt
  else ret tt.

(** [home()] *)
Definition home : M Reply :=
  s <- get_session ;;
  match sess_username s with
  | Some _ =>
      match sess_role s with
      | Some r =>
          if String.eqb r "Administrator" then
            ret (mkReply [] (Redirect "dashboard_admin"))
          else if String.eqb r "Investor" then
            ret (mkReply [] (Redirect "dashboard_investor"))
          else if String.eqb r "Researcher" then
            ret (mkReply [] (Redirect "dashboard_researcher"))
          else ret (mkReply [] (Redirect "login"))
      | None => ret (mkReply [] (Redirect "login"))
      end
  | None => ret (mkReply [] (Redirect "login"))
  end.

(** [login()] *)
Definition login (req : Request) : M Reply :=
  match req_method req with
  | POST =>
      let uname := strip (form_get (req_form req) "username" "") in
      let password := form_get (req_form req) "password" "" in
      r <- authenticate uname password (remote_addr req) ;;
      let '(success, message) := r in
      if success then
        ret (mkReply [("Login successful.", "success")] (Redirect "home"))
      else ret (mkReply [(message, "danger")] (Render "login.html"))
  | GET => ret (mkReply [] (Render "login.html"))
  end.

(** [logout()] *)
Definition logout : M Reply :=
  set_session empty_session ;;;
  ret (mkReply [("Logged out.", "info")] (Redirect "login")).

(** [dashboard_investor()] *)
Definition dashboard_investor : M Reply :=
  requires_role (inl "Investor")
    (ret (mkReply [] (Render "dashboard_investor.html"))).

(** [admin_unlock(user_id)] *)
Definition admin_unlock (uid : string) : M Reply :=
  requires_role (inl "Administrator")
    (ok <- unlock_account uid ;;
     ret (mkReply [if ok : bool then ("Account unlocked.", "success")
                   else ("Could not find user.", "danger")]
                  (Redirect "dashboard_admin"))).

End Routes.

(* ================================================================== *)
(** * Further notions used by the properties of the code *)
(* ================================================================== *)

(** Where [home] sends a session with the role [r]. *)
Definition dashboard_of (r : string) : string :=
  if String.eqb r "Administrator" then "dashboard_admin"
  else if String.eqb r "Investor" then "dashboard_investor"
  else if String.eqb r "Researcher" then "dashboard_researcher"
  else "login".

(** The page of a reply, when the route has answered. *)
Definition page_of (r : result Reply) : option Page :=
  match r with
  | Ret reply => Some (page reply)
  | _ => None
  end.

(** The characters a generated username is made of. *)
Definition username_char (c : ascii) : bool :=
  is_lower c || is_digit c || Ascii.eqb c ".".

(** The records that carry the role Administrator. *)
Definition administrators (users : list User) : list User :=
  filter (fun u => String.eqb (role u) "Administrator") users.

(** What [unlock_account] and [reset_password] do to a record. *)
Definition cleared (u : User) : User :=
  set_locked_until None (set_failed_logins 0 u).

Definition with_new_password (h : string) (u : User) : User :=
  cleared (set_password_hash h u).

(** The session [authenticate] establishes for a record. *)
Definition session_of (u : User) : Session :=
  mkSession (Some (username u)) (Some (role u)) (Some (user_id u)).

(** The entries a call has added to the log. *)
Definition logged (w w' : World) (entries : list LogEntry) : Prop :=
  logs_file w' = (logs_file w ++ entries)%list.

(* ================================================================== *)
(** * Lemmas on strings *)
(* ================================================================== *)

Lemma list_ascii_app (a b : string) :
  list_ascii_of_string (a ++ b) =
  (list_ascii_of_string a ++ list_ascii_of_string b)%list.
Proof.
  induction a as [|c a IH]; simpl; [reflexivity | now rewrite IH].
Qed.

Lemma length_list_ascii (s : string) :
  List.length (list_ascii_of_string s) = String.length s.
Proof.
  induction s as [|c s IH]; simpl; [reflexivity | now rewrite IH].
Qed.

Lemma length_app (a b : string) :
  String.length (a ++ b) = (String.length a + String.length b)%nat.
Proof.
  induction a as [|c a IH]; simpl; [reflexivity | now rewrite IH].
Qed.

Lemma trailing_app (k : nat) (a b : string) :
  String.length b = k -> trailing k (a ++ b) = b.
Proof.
  intros Hk. unfold trailing.
  rewrite length_app, Hk, Nat.add_sub, list_ascii_app.
  rewrite <- (length_list_ascii a), skipn_app, skipn_all, Nat.sub_diag.
  simpl. apply string_of_list_ascii_of_string.
Qed.

Lemma preceding_app (k : nat) (a b : string) :
  String.length b = k -> preceding k (a ++ b) = a.
Proof.
  intros Hk. unfold preceding.
  rewrite length_app, Hk, Nat.add_sub, list_ascii_app.
  rewrite <- (length_list_ascii a), firstn_app, firstn_all, Nat.sub_diag.
  simpl. rewrite app_nil_r. apply string_of_list_ascii_of_string.
Qed.



(** A residue mod 97 is written with at most two digits. *)
Lemma length_two_digits (n : Z) :
  0 <= n < 97 -> String.length (zfill 2 (str n)) = 2%nat.
Proof.
  intros Hn.
  assert (All : forallb (fun k => Nat.eqb
                 (String.length (zfill 2 (str (Z.of_nat k)))) 2)
                 (seq 0 97) = true) by (vm_compute; reflexivity).
  rewrite forallb_forall in All.
  specialize (All (Z.to_nat n)).
  rewrite Z2Nat.id in All by lia.
  apply Nat.eqb_eq, All, in_seq. lia.
Qed.

Lemma with_checksum_valid (core : string) :
  checksum_valid (with_checksum core) = true.
Proof.
  unfold checksum_valid, with_checksum.
  assert (L : String.length (zfill 2 (str (checksum_of core))) = 2%nat).
  { apply length_two_digits. unfold checksum_of.
    apply Z.mod_pos_bound. lia. }
  rewrite (trailing_app 2 _ _ L), (preceding_app 2 _ _ L).
  apply String.eqb_refl.
Qed.

(* ================================================================== *)
(** * Identity generation: what a returned identifier is *)
(* ================================================================== *)

Lemma same_store_refl (w : World) : same_store w w.
Proof. repeat split. Qed.

Lemma same_store_trans (w1 w2 w3 : World) :
  same_store w1 w2 -> same_store w2 w3 -> same_store w1 w3.
Proof.
  unfold same_store. intros (A & B & C) (D & E & F).
  repeat split; congruence.
Qed.

Lemma generate_user_id_loop_ret (fuel : nat) (users : list User)
    (base_date initials : string) :
  forall (attempt : nat) (w w' : World) (uid : string),
    generate_user_id_loop fuel users base_date initials attempt w
      = (Ret uid, w') ->
    same_store w w' /\
    user_id_taken users uid = false /\
    (entropy_reads w < entropy_reads w')%nat /\
    user_id_origin attempt w w' uid.
Proof.
  induction fuel as [|fuel IH]; intros attempt w w' uid; simpl.
  - discriminate.
  - unfold bind at 1. unfold randbelow, bind, draw, ret. simpl.
    set (core := core_of _ _ _).
    destruct (user_id_taken users (with_checksum core)) eqn:Taken; simpl.
    + destruct (50 <? S attempt)%nat eqn:Late.
      * unfold time_time, bind, utcnow, ret. simpl.
        set (secs := _ / 1000000).
        destruct (user_id_taken users (with_time core secs)) eqn:Taken2;
          simpl.
        -- intros Run. apply IH in Run.
           destruct Run as ((U & L & S') & Free & Lt & Origin).
           cbn [users_file logs_file session entropy_reads] in *.
           repeat split; auto; try lia.
           destruct Origin as [c E | c s E Gt];
             [ eapply from_checksum | eapply from_fallback ]; eauto.
           cbn [entropy_reads] in Gt. lia.
        -- intros [= <- <-]. simpl. repeat split; auto.
           eapply from_fallback; [reflexivity|].
           cbn [entropy_reads]. apply Nat.ltb_lt in Late. lia.
      * intros Run. apply IH in Run.
        destruct Run as ((U & L & S') & Free & Lt & Origin).
        cbn [users_file logs_file session entropy_reads] in *.
        repeat split; auto; try lia.
        destruct Origin as [c E | c s E Gt];
          [ eapply from_checksum | eapply from_fallback ]; eauto.
        cbn [entropy_reads] in Gt. lia.
    + intros [= <- <-]. simpl. repeat split; auto.
      eapply from_checksum; reflexivity.
Qed.

Lemma pair_of_fst {A B} (x : A * B) (a : A) : fst x = a -> x = (a, snd x).
Proof. destruct x; simpl; intros <-; reflexivity. Qed.


(* ================================================================== *)
(** * Lemmas on loaded documents *)
(* ================================================================== *)

Lemma length_update_nth {A} (i : nat) (f : A -> A) (l : list A) :
  List.length (update_nth i f l) = List.length l.
Proof.
  revert i. induction l as [|x l IH]; intros [|i]; simpl; auto.
Qed.

Lemma nth_update_nth_eq {A} (i : nat) (f : A -> A) (l : list A) (d : A) :
  (i < List.length l)%nat ->
  nth i (update_nth i f l) d = f (nth i l d).
Proof.
  revert i. induction l as [|x l IH]; intros [|i]; simpl; intros Hi;
    try lia; auto.
  apply IH. lia.
Qed.

Lemma nth_update_nth_neq {A} (i j : nat) (f : A -> A) (l : list A) (d : A) :
  i <> j -> nth j (update_nth i f l) d = nth j l d.
Proof.
  revert i j. induction l as [|x l IH]; intros [|i] [|j]; simpl;
    intros Ne; try congruence; auto.
Qed.

(** The document [load_users] has just allocated holds the file. *)
Lemma nth_alloc {A} (l : list A) (x d : A) :
  nth (List.length l) (l ++ [x]) d = x.
Proof. apply nth_middle. Qed.

(** An older document is not touched by an allocation. *)
Lemma nth_older {A} (l : list A) (x d : A) (i : nat) :
  (i < List.length l)%nat -> nth i (l ++ [x]) d = nth i l d.
Proof. intros Hi. apply app_nth1. exact Hi. Qed.

Lemma length_alloc {A} (l : list A) (x : A) :
  List.length (l ++ [x]) = S (List.length l).
Proof. rewrite List.length_app. simpl. lia. Qed.

(** Where the loop over a list stops is the record [find] returns. *)
Lemma find_index_find (p : User -> bool) (users : list User) :
  match find_index p users with
  | Some i => (i < List.length users)%nat /\
              find p users = Some (nth i users blank_user)
  | None => find p users = None
  end.
Proof.
  induction users as [|u users IH]; simpl; [reflexivity|].
  destruct (p u); [split; [lia | reflexivity]|].
  destruct (find_index p users) as [i|]; simpl; [|exact IH].
  destruct IH as [Hi Found]. split; [lia | exact Found].
Qed.

Lemma find_index_some (p : User -> bool) (users : list User) (u : User) :
  find p users = Some u ->
  exists i, find_index p users = Some i /\ (i < List.length users)%nat /\
            nth i users blank_user = u.
Proof.
  intros Found. pose proof (find_index_find p users) as F.
  destruct (find_index p users) as [i|].
  - destruct F as [Hi E]. exists i. repeat split; auto. congruence.
  - congruence.
Qed.

Lemma find_index_none (p : User -> bool) (users : list User) :
  find p users = None -> find_index p users = None.
Proof.
  intros Missing. pose proof (find_index_find p users) as F.
  destruct (find_index p users) as [i|]; [|reflexivity].
  destruct F as [_ E]. congruence.
Qed.

Ltac world_fields :=
  cbn [fst snd users_file logs_file session heap clock clock_reads
       entropy entropy_reads failed_logins locked_until
       set_failed_logins set_locked_until fmt_opt ref_doc ref_pos] in *.

Lemma generate_user_id_ret `{Platform} (fuel : nat)
    (fn ln c : string) (w w' : World) (uid : string) :
  generate_user_id fuel fn ln c w = (Ret uid, w') ->
  same_store w w' /\
  user_id_taken (users_file w) uid = false /\
  user_id_origin 0 w w' uid.
Proof.
  unfold generate_user_id, bind, load_users, users_of, utcnow.
  world_fields. rewrite nth_alloc.
  intros Run. apply generate_user_id_loop_ret in Run.
  destruct Run as (Same & Free & _ & Origin). cbn in Same.
  repeat split; try apply Same; auto.
  destruct Origin as [core E | core s E Gt];
    [ eapply from_checksum | eapply from_fallback ]; eauto.
Qed.

(** What the iteration that returns has done.  The identifier is built
    on the core of the last draw: it is that core with its checksum, or,
    once more than 50 candidates have collided and the checksummed
    candidate of this draw collides too, that core followed by the
    seconds of the last reading of the clock, mod 10000. *)
Lemma generate_user_id_loop_last (fuel : nat) (users : list User)
    (base_date initials : string) :
  forall (attempt : nat) (w w' : World) (uid : string),
    generate_user_id_loop fuel users base_date initials attempt w
      = (Ret uid, w') ->
    entropy w' = entropy w /\ clock w' = clock w /\
    (entropy_reads w < entropy_reads w')%nat /\
    (clock_reads w <= clock_reads w')%nat /\
    let core := core_of base_date initials
                  (entropy w (entropy_reads w' - 1) mod 10000) in
    (uid = with_checksum core \/
     (50 < attempt + (entropy_reads w' - entropy_reads w))%nat /\
     (clock_reads w < clock_reads w')%nat /\
     user_id_taken users (with_checksum core) = true /\
     uid = with_time core (clock w (clock_reads w' - 1) / 1000000)).
Proof.
  induction fuel as [|fuel IH]; intros attempt w w' uid; simpl.
  - discriminate.
  - unfold bind at 1. unfold randbelow, bind, draw, ret. world_fields.
    destruct (user_id_taken users (with_checksum _)) eqn:Taken; cbn [negb].
    + destruct (50 <? S attempt)%nat eqn:Late.
      * unfold time_time, bind, utcnow, ret. world_fields.
        destruct (user_id_taken users (with_time _ _)) eqn:Taken2;
          cbn [negb].
        -- intros Run. apply IH in Run. world_fields.
           destruct Run as (E & C & Lt & Le & Last).
           repeat split; auto; try lia.
           destruct Last as [Sum | (Gt & Lt' & Coll & Time)];
             [left; exact Sum | right].
           repeat split; auto; lia.
        -- intros [= <- <-]. world_fields.
           replace (S (entropy_reads w) - 1)%nat with (entropy_reads w)
             by lia.
           replace (S (clock_reads w) - 1)%nat with (clock_reads w) by lia.
           repeat split; auto; try lia.
           right. apply Nat.ltb_lt in Late. repeat split; auto; lia.
      * intros Run. apply IH in Run. world_fields.
        destruct Run as (E & C & Lt & Le & Last).
        repeat split; auto; try lia.
        destruct Last as [Sum | (Gt & Lt' & Coll & Time)];
          [left; exact Sum | right].
        repeat split; auto; lia.
    + intros [= <- <-]. world_fields.
      replace (S (entropy_reads w) - 1)%nat with (entropy_reads w) by lia.
      repeat split; auto.
Qed.

(** C1 (as amended).  The identifier [generate_user_id] returns is built
    on the core of its last draw.  Either it is that core followed by
    its two-digit checksum, and then its trailing 2 characters are the
    checksum of what precedes them; or it comes from the collision
    fallback: then more than 50 candidates have been drawn, the
    checksummed candidate of the last draw is in the store, and the
    identifier is the core followed by the decimal unix time mod 10000,
    with no checksum appended.  In particular an identifier returned
    within 50 draws carries the checksum. *)
Theorem generate_user_id_checksum (P : Platform) (fuel : nat)
    (fn ln c : string) (w w' : World) (uid : string) :
  generate_user_id fuel fn ln c w = (Ret uid, w') ->
  let draws := (entropy_reads w' - entropy_reads w)%nat in
  let core :=
    core_of (strftime_yymmdd (clock w (clock_reads w)))
            (upper (take 1 fn ++ take 1 ln))
            (entropy w (entropy_reads w' - 1) mod 10000) in
  (1 <= draws)%nat /\
  (uid = with_checksum core /\ checksum_valid uid = true \/
   (50 < draws)%nat /\
   user_id_taken (users_file w) (with_checksum core) = true /\
   uid = core ++ str (clock w (clock_reads w' - 1) / 1000000 mod 10000)) /\
  ((draws <= 50)%nat -> checksum_valid uid = true).
Proof.
  unfold generate_user_id, bind, load_users, users_of, utcnow.
  world_fields. rewrite nth_alloc.
  intros Run. apply generate_user_id_loop_last in Run. world_fields.
  destruct Run as (_ & _ & Lt & _ & Last). cbv zeta in *.
  split; [lia|].
  destruct Last as [Sum | (Gt & _ & Coll & Time)].
  - assert (Valid : checksum_valid uid = true)
      by (rewrite Sum; apply with_checksum_valid).
    split; [left; auto | intros _; exact Valid].
  - split; [right; repeat split; auto; lia | intros Le; lia].
Qed.

Lemma generate_user_id_checksum_witness :
  checksum_valid "MINN250101JD004371" = true.
Proof.
  refine (proj2 (proj2 (generate_user_id_checksum Reference.platform 5
                          "Jane" "Doe" "SouthAfrica" Examples.one_retry
                          (snd (generate_user_id (P := Reference.platform) 5
                                  "Jane" "Doe" "SouthAfrica"
                                  Examples.one_retry))
                          "MINN250101JD004371" _)) _).
  - apply pair_of_fst. vm_compute. reflexivity.
  - vm_compute. lia.
Defined.

(** C1 (as stated) fails on the fallback branch: with the identifier of
    draw 42 already in the store and the random source repeating 42, the
    51st iteration returns the core followed by 9600, whose last two
    characters are not the checksum of the rest. *)
Lemma generate_user_id_fallback_unchecked :
  fst (generate_user_id (P := Reference.platform) 60
         "Jane" "Doe" "SouthAfrica" Examples.one_collision)
    = Ret "MINN250101JD00429600"
  /\ checksum_valid "MINN250101JD00429600" = false.
Proof. split; vm_compute; reflexivity. Qed.

(* ================================================================== *)
(** * Identity generation: termination *)
(* ================================================================== *)



Lemma all_collide_checksum :
  user_id_taken (users_file Examples.all_collide)
    (with_checksum (core_of "250101" "JD" (42 mod 10000))) = true.
Proof. vm_compute. reflexivity. Qed.

Lemma all_collide_fallback :
  user_id_taken (users_file Examples.all_collide)
    (with_time (core_of "250101" "JD" (42 mod 10000))
               (Examples.new_year / 1000000)) = true.
Proof. vm_compute. reflexivity. Qed.

(** With the store and the oracles of [Examples.all_collide] the loop
    never returns, whatever the number of iterations followed. *)
Lemma generate_user_id_loop_collides (fuel : nat) :
  forall (attempt : nat) (w : World),
    entropy w = Examples.stuck 42 ->
    clock w = Examples.frozen Examples.new_year ->
    fst (generate_user_id_loop fuel (users_file Examples.all_collide)
           "250101" "JD" attempt w) = OutOfFuel.
Proof.
  induction fuel as [|fuel IH]; intros attempt w He Hc;
    cbn [generate_user_id_loop].
  - reflexivity.
  - unfold bind at 1. unfold randbelow, bind, draw, ret.
    cbn [entropy entropy_reads clock clock_reads].
    rewrite He. unfold Examples.stuck.
    rewrite all_collide_checksum. cbn [negb].
    destruct (50 <? S attempt)%nat.
    + unfold time_time, bind, utcnow, ret.
      cbn [entropy entropy_reads clock clock_reads].
      rewrite Hc. unfold Examples.frozen.
      rewrite all_collide_fallback. cbn [negb].
      apply IH; cbn [entropy clock]; (assumption || reflexivity).
    + apply IH; cbn [entropy clock]; (assumption || reflexivity).
Qed.

Lemma generate_user_id_diverges (fuel : nat) :
  fst (generate_user_id (P := Reference.platform) fuel
         "Jane" "Doe" "SouthAfrica" Examples.all_collide) = OutOfFuel.
Proof.
  unfold generate_user_id, bind, load_users, users_of, utcnow.
  world_fields.
  apply generate_user_id_loop_collides; reflexivity.
Qed.

(* ================================================================== *)
(** * Usernames *)
(* ================================================================== *)

Lemma generate_username_loop_ret (fuel : nat) (users : list User)
    (base : string) :
  forall (uname : string) (suffix : nat) (w w' : World) (name : string),
    generate_username_loop fuel users base uname suffix w = (Ret name, w') ->
    w' = w /\ username_taken users name = false.
Proof.
  induction fuel as [|fuel IH]; intros uname suffix w w' name; simpl;
    destruct (username_taken users uname) eqn:Taken; simpl.
  - discriminate.
  - intros [= <- <-]. auto.
  - apply IH.
  - intros [= <- <-]. auto.
Qed.

Lemma str_nonempty (n : Z) : n <> 0 -> str n <> "".
Proof.
  intros Hn E. apply Hn.
  assert (I : Some (Z.to_int n) = Some (Decimal.Pos Decimal.Nil)).
  { rewrite <- NilEmpty.isi. unfold str in E. rewrite E. reflexivity. }
  injection I as I. rewrite <- (DecimalZ.of_to n), I. reflexivity.
Qed.



Lemma username_taken_In (users : list User) (name : string) :
  username_taken users name = true <-> In name (map username users).
Proof.
  unfold username_taken. rewrite existsb_exists, in_map_iff.
  split.
  - intros (u & Hin & Heq). exists u. apply String.eqb_eq in Heq. auto.
  - intros (u & Heq & Hin). exists u.
    split; [exact Hin | apply String.eqb_eq; exact Heq].
Qed.

Lemma user_id_taken_In (users : list User) (uid : string) :
  user_id_taken users uid = true <-> In uid (map user_id users).
Proof.
  unfold user_id_taken. rewrite existsb_exists, in_map_iff.
  split.
  - intros (u & Hin & Heq). exists u. apply String.eqb_eq in Heq. auto.
  - intros (u & Heq & Hin). exists u.
    split; [exact Hin | apply String.eqb_eq; exact Heq].
Qed.




Lemma generate_username_ret (fuel : nat) (fn ln c org : string)
    (w w' : World) (name : string) :
  generate_username fuel fn ln c org w = (Ret name, w') ->
  same_store w w' /\ username_taken (users_file w) name = false.
Proof.
  unfold generate_username, bind, load_users, users_of.
  world_fields. rewrite nth_alloc. intros Run.
  apply generate_username_loop_ret in Run. destruct Run as (-> & Free).
  split; [repeat split | exact Free].
Qed.

(* ================================================================== *)
(** * Authentication *)
(* ================================================================== *)

Lemma deref_set (r : user_ref) (f : User -> User) (h : list (list User)) :
  valid_ref r h ->
  deref r (assign r f h) = f (deref r h).
Proof.
  intros [Hd Hp]. unfold deref, assign.
  rewrite (nth_update_nth_eq (ref_doc r)) by exact Hd.
  rewrite nth_update_nth_eq by exact Hp. reflexivity.
Qed.

Lemma valid_ref_set (r : user_ref) (f : User -> User) (h : list (list User)) :
  valid_ref r h ->
  valid_ref r (assign r f h).
Proof.
  intros [Hd Hp]. unfold assign. split; cbn [ref_doc ref_pos].
  - rewrite length_update_nth. exact Hd.
  - rewrite (nth_update_nth_eq (ref_doc r)) by exact Hd.
    rewrite length_update_nth. exact Hp.
Qed.

(** An assignment to a record leaves the other documents as they are. *)
Lemma other_doc_set (r : user_ref) (f : User -> User) (h : list (list User))
    (d : doc_ref) :
  ref_doc r <> d ->
  nth d (assign r f h) [] = nth d h [].
Proof. intros Ne. apply nth_update_nth_neq. exact Ne. Qed.

Ltac unfold_auth :=
  unfold check_credentials, check_password, get_user, set_user, time_time,
    bind, ret, raise, save_users, append_log, set_session, utcnow in *;
  world_fields.

Ltac heap_simpl Valid Ne :=
  repeat first
    [ rewrite deref_set by (repeat apply valid_ref_set; exact Valid)
    | rewrite other_doc_set by exact Ne ];
  cbn [user_id username role password_hash failed_logins locked_until
       set_failed_logins set_locked_until fmt_opt].

Section Credentials.
Context {P : Platform}.
Variables (data : doc_ref) (user : user_ref) (w : World).
Variables (password now : string) (remote_ip : option string).
Hypothesis Valid : valid_ref user (heap w).
Hypothesis Other : ref_doc user <> data.

Local Abbreviation u := (deref user (heap w)).
Local Abbreviation out :=
  (check_credentials data user password now remote_ip w).

(** The three outcomes of the password branch.  In each the file
    receives the document [data], which the assignments to the record
    have not changed. *)
Lemma check_credentials_match :
  bcrypt_checkpw password (password_hash u) = Some true ->
  fst out = Ret (true, "Authenticated") /\
  users_file (snd out) = nth data (heap w) [] /\
  logs_file (snd out) = (logs_file w ++ [log_success now u remote_ip])%list /\
  session (snd out) = mkSession (Some (username u)) (Some (role u))
                                (Some (user_id u)) /\
  deref user (heap (snd out)) = set_locked_until None (set_failed_logins 0 u).
Proof.
  intros Ok. unfold_auth. rewrite Ok. world_fields.
  heap_simpl Valid Other. repeat split; heap_simpl Valid Other; reflexivity.
Qed.

Lemma check_credentials_lock :
  bcrypt_checkpw password (password_hash u) = Some false ->
  config.MAX_FAILED_LOGIN <= failed_logins u + 1 ->
  let until :=
    isoformat (posix_timestamp (clock w (clock_reads w))
               + config.LOCKOUT_SECONDS * 1000000) ++ "Z" in
  fst out = Ret (false, msg_too_many until) /\
  users_file (snd out) = nth data (heap w) [] /\
  logs_file (snd out) = (logs_file w ++ [log_locked now u remote_ip])%list /\
  session (snd out) = session w /\
  deref user (heap (snd out))
    = set_locked_until (Some until)
        (set_failed_logins (failed_logins u + 1) u).
Proof.
  intros Bad Reach. unfold_auth. rewrite Bad. world_fields.
  heap_simpl Valid Other.
  apply Z.leb_le in Reach. rewrite Reach. world_fields.
  heap_simpl Valid Other. rewrite Reach. world_fields.
  repeat split; heap_simpl Valid Other; reflexivity.
Qed.

Lemma check_credentials_fail :
  bcrypt_checkpw password (password_hash u) = Some false ->
  failed_logins u + 1 < config.MAX_FAILED_LOGIN ->
  fst out = Ret (false, msg_invalid) /\
  users_file (snd out) = nth data (heap w) [] /\
  logs_file (snd out)
    = (logs_file w ++
       [log_failed now (set_failed_logins (failed_logins u + 1) u)
          remote_ip])%list /\
  session (snd out) = session w /\
  deref user (heap (snd out)) = set_failed_logins (failed_logins u + 1) u.
Proof.
  intros Bad Below. unfold_auth. rewrite Bad. world_fields.
  heap_simpl Valid Other.
  apply Z.leb_gt in Below. rewrite Below. world_fields.
  heap_simpl Valid Other. rewrite Below. world_fields.
  repeat split; heap_simpl Valid Other; reflexivity.
Qed.

(** Where [bcrypt.checkpw] raises, the password branch raises with it,
    before anything is logged or changed. *)
Lemma check_credentials_raises :
  bcrypt_checkpw password (password_hash u) = None ->
  out = (Raise ValueError, w).
Proof. intros Refused. unfold_auth. rewrite Refused. reflexivity. Qed.

(** The password branch returns the verdict of [bcrypt.checkpw], and
    what it then saves is [data]; it raises only where
    [bcrypt.checkpw] does. *)
Lemma check_credentials_cases :
  match bcrypt_checkpw password (password_hash u) with
  | Some ok =>
      exists msg,
        fst out = Ret (ok, msg) /\
        users_file (snd out) = nth data (heap w) []
  | None => out = (Raise ValueError, w)
  end.
Proof.
  destruct (bcrypt_checkpw password (password_hash u)) as [[|]|] eqn:Pw.
  - destruct (check_credentials_match Pw) as (R & U & _). eauto.
  - destruct (Z_le_gt_dec config.MAX_FAILED_LOGIN (failed_logins u + 1))
      as [Reach | Below].
    + destruct (check_credentials_lock Pw Reach) as (R & U & _). eauto.
    + destruct (check_credentials_fail Pw) as (R & U & _); [lia|]. eauto.
  - now apply check_credentials_raises.
Qed.

(** The only exception of the password branch is [bcrypt]'s. *)
Lemma check_credentials_completes :
  (exists ok msg, fst out = Ret (ok, msg)) \/ fst out = Raise ValueError.
Proof.
  pose proof check_credentials_cases as Cases.
  destruct (bcrypt_checkpw password (password_hash u)) as [ok|].
  - destruct Cases as (msg & R & _). left. eauto.
  - right. now rewrite Cases.
Qed.

(** When [data] holds the file, the file is the same afterwards. *)
Lemma check_credentials_users_file :
  nth data (heap w) [] = users_file w ->
  users_file (snd out) = users_file w.
Proof.
  intros Data. pose proof check_credentials_cases as Cases.
  destruct (bcrypt_checkpw password (password_hash u)) as [ok|].
  - destruct Cases as (msg & _ & Saved). now rewrite Saved.
  - now rewrite Cases.
Qed.

End Credentials.

(** ** The world [authenticate] works in *)

Lemma found_ref_valid (w : World) (i : nat) :
  (i < List.length (users_file w))%nat ->
  valid_ref (found_ref w i) (heap (after_lookup w)).
Proof.
  intros Hi. unfold valid_ref, found_ref, after_lookup. world_fields.
  rewrite <- (length_alloc (heap w) (users_file w)), nth_alloc.
  split; [rewrite !length_alloc; lia | exact Hi].
Qed.

Lemma found_ref_deref (w : World) (i : nat) :
  deref (found_ref w i) (heap (after_lookup w))
    = nth i (users_file w) blank_user.
Proof.
  unfold deref, found_ref, after_lookup. world_fields.
  rewrite <- (length_alloc (heap w) (users_file w)), nth_alloc.
  reflexivity.
Qed.

Lemma data_ref_doc (w : World) :
  nth (data_ref w) (heap (after_lookup w)) [] = users_file w.
Proof.
  unfold data_ref, after_lookup. world_fields.
  rewrite nth_older by (rewrite length_alloc; lia). apply nth_alloc.
Qed.

Lemma found_ref_other (w : World) (i : nat) :
  ref_doc (found_ref w i) <> data_ref w.
Proof. unfold found_ref, data_ref. world_fields. lia. Qed.

(** [authenticate] up to the point where the record is examined. *)
Lemma authenticate_lookup `{Platform} (uname password : string)
    (remote_ip : option string) (w : World) :
  authenticate uname password remote_ip w =
  match find_index (has_username uname) (users_file w) with
  | None =>
      (append_log (log_no_user (now_of w) uname remote_ip) ;;;
       ret (false, msg_invalid)) (after_lookup w)
  | Some i =>
      let user := found_ref w i in
      (locked <- lockout_check user ;;
       if locked then
         u <- get_user user ;;
         append_log (log_blocked (now_of w) u remote_ip) ;;;
         ret (false, msg_locked (fmt_opt (locked_until u)))
       else check_credentials (data_ref w) user password (now_of w)
              remote_ip) (after_lookup w)
  end.
Proof.
  unfold authenticate, find_user_by_username.
  unfold bind at 1. unfold load_users at 1.
  unfold bind at 1. unfold bind at 1. unfold load_users at 1.
  unfold bind at 1. unfold users_of at 1. unfold ret at 1.
  unfold bind at 1. unfold utcnow at 1.
  world_fields. rewrite nth_alloc, length_alloc.
  destruct (find_index (has_username uname) (users_file w)) as [i|];
    reflexivity.
Qed.

Lemma known_user_index (w : World) (uname : string) (user : User) :
  known_user w uname user ->
  exists i,
    find_index (has_username uname) (users_file w) = Some i /\
    (i < List.length (users_file w))%nat /\
    deref (found_ref w i) (heap (after_lookup w)) = user.
Proof.
  intros Known. apply find_index_some in Known.
  destruct Known as (i & Found & Hi & Nth).
  exists i. rewrite found_ref_deref. auto.
Qed.

Lemma truthy_nonempty (s : string) : s <> "" -> truthy s = true.
Proof. destruct s; [congruence | reflexivity]. Qed.

(** Apart from the heap and the clock cursor, [after_lookup] and [tick]
    change nothing. *)
Lemma after_lookup_fields (w : World) :
  users_file (after_lookup w) = users_file w /\
  logs_file (after_lookup w) = logs_file w /\
  session (after_lookup w) = session w /\
  clock (after_lookup w) = clock w /\
  clock_reads (after_lookup w) = S (clock_reads w) /\
  entropy (after_lookup w) = entropy w /\
  entropy_reads (after_lookup w) = entropy_reads w.
Proof. repeat split. Qed.

Lemma after_lookup_users_file w : users_file (after_lookup w) = users_file w.
Proof. reflexivity. Qed.
Lemma after_lookup_logs_file w : logs_file (after_lookup w) = logs_file w.
Proof. reflexivity. Qed.
Lemma after_lookup_session w : session (after_lookup w) = session w.
Proof. reflexivity. Qed.
Lemma after_lookup_clock w : clock (after_lookup w) = clock w.
Proof. reflexivity. Qed.
Lemma after_lookup_clock_reads w :
  clock_reads (after_lookup w) = S (clock_reads w).
Proof. reflexivity. Qed.
Lemma after_lookup_entropy w : entropy (after_lookup w) = entropy w.
Proof. reflexivity. Qed.
Lemma after_lookup_entropy_reads w :
  entropy_reads (after_lookup w) = entropy_reads w.
Proof. reflexivity. Qed.

Create Rewrite HintDb world_db.
#[local] Hint Rewrite after_lookup_users_file after_lookup_logs_file
  after_lookup_session after_lookup_clock after_lookup_clock_reads
  after_lookup_entropy after_lookup_entropy_reads : world_db.

Ltac wsimpl :=
  world_fields; autorewrite with world_db in *; world_fields.

Ltac unfold_lockout :=
  unfold lockout_check, get_user, bind, ret, raise, append_log, utcnow in *;
  wsimpl.

(** ** The paths through [authenticate] *)

Lemma authenticate_unknown `{Platform} (uname password : string)
    (remote_ip : option string) (w : World) :
  unknown_user w uname ->
  authenticate uname password remote_ip w =
  (Ret (false, msg_invalid),
   mkWorld (users_file w)
     (logs_file w ++ [log_no_user (now_of w) uname remote_ip])
     (session w) (heap (after_lookup w)) (clock w) (S (clock_reads w))
     (entropy w) (entropy_reads w)).
Proof.
  intros Unknown. rewrite authenticate_lookup.
  rewrite (find_index_none _ _ Unknown). reflexivity.
Qed.

Lemma authenticate_blocked `{Platform} (uname password : string)
    (remote_ip : option string) (w : World) (user : User)
    (until : string) :
  known_user w uname user ->
  locked_in w user until ->
  authenticate uname password remote_ip w =
  (Ret (false, msg_locked until),
   mkWorld (users_file w)
     (logs_file w ++ [log_blocked (now_of w) user remote_ip])
     (session w) (heap (after_lookup w)) (clock w) (S (S (clock_reads w)))
     (entropy w) (entropy_reads w)).
Proof.
  intros Known (Lu & Ne & ts & Parse & Future).
  rewrite authenticate_lookup.
  destruct (known_user_index _ _ _ Known) as (i & -> & _ & Deref).
  cbv zeta. unfold_lockout. rewrite Deref, Lu, (truthy_nonempty _ Ne), Parse.
  wsimpl. apply Z.ltb_lt in Future. rewrite Future.
  wsimpl. rewrite Deref, Lu. reflexivity.
Qed.

Lemma authenticate_active `{Platform} (uname password : string)
    (remote_ip : option string) (w : World) (user : User) :
  known_user w uname user ->
  active_in w user ->
  exists i n,
    (i < List.length (users_file w))%nat /\
    deref (found_ref w i) (heap (after_lookup w)) = user /\
    authenticate uname password remote_ip w =
    check_credentials (data_ref w) (found_ref w i) password (now_of w)
      remote_ip (tick n (after_lookup w)).
Proof.
  intros Known Active. rewrite authenticate_lookup.
  destruct (known_user_index _ _ _ Known) as (i & -> & Hi & Deref).
  exists i. cbv zeta. unfold_lockout. rewrite Deref.
  destruct Active as [Null | (lu & ts & Lu & Parse & Past)].
  - rewrite Null. exists 0%nat. auto.
  - rewrite Lu. destruct (truthy lu).
    + rewrite Parse. wsimpl.
      apply Z.ltb_ge in Past. rewrite Past.
      exists 1%nat. auto.
    + exists 0%nat. auto.
Qed.

Lemma authenticate_unparsable `{Platform} (uname password : string)
    (remote_ip : option string) (w : World) (user : User) (lu : string) :
  known_user w uname user ->
  locked_until user = Some lu ->
  fromisoformat (remove_char "Z" lu) = ParseError ->
  exists i,
    (i < List.length (users_file w))%nat /\
    deref (found_ref w i) (heap (after_lookup w)) = user /\
    authenticate uname password remote_ip w =
    check_credentials (data_ref w) (found_ref w i) password (now_of w)
      remote_ip (after_lookup w).
Proof.
  intros Known Lu Parse. rewrite authenticate_lookup.
  destruct (known_user_index _ _ _ Known) as (i & -> & Hi & Deref).
  exists i. cbv zeta. unfold_lockout. rewrite Deref, Lu.
  destruct (truthy lu); [rewrite Parse|]; auto.
Qed.

(** Whatever the path, the file keeps the records it had: the only
    document [authenticate] saves is [data], and no assignment reaches
    it. *)
Lemma authenticate_users_file `{Platform} (uname password : string)
    (remote_ip : option string) (w : World) :
  users_file (snd (authenticate uname password remote_ip w)) = users_file w.
Proof.
  rewrite authenticate_lookup.
  pose proof (find_index_find (has_username uname) (users_file w)) as F.
  destruct (find_index (has_username uname) (users_file w)) as [i|];
    [|reflexivity].
  destruct F as [Hi _]. cbv zeta.
  assert (Pw : forall n,
             users_file
               (snd (check_credentials (data_ref w) (found_ref w i) password
                       (now_of w) remote_ip (tick n (after_lookup w))))
             = users_file w).
  { intros n.
    transitivity (users_file (tick n (after_lookup w))); [|reflexivity].
    apply (check_credentials_users_file (data_ref w) (found_ref w i)
             (tick n (after_lookup w)) password (now_of w) remote_ip).
    - apply (found_ref_valid w i Hi).
    - apply found_ref_other.
    - exact (data_ref_doc w). }
  unfold_lockout.
  destruct (locked_until _) as [lu|]; wsimpl; [|apply (Pw 0%nat)].
  destruct (truthy lu); wsimpl; [|apply (Pw 0%nat)].
  destruct (fromisoformat _) as [|ts|ts]; wsimpl;
    [apply (Pw 0%nat) | | reflexivity].
  destruct (_ <? ts); wsimpl; [reflexivity | apply (Pw 1%nat)].
Qed.

(** C4 (as amended).  For a known user whose [locked_until] is a
    timestamp without UTC offset that is strictly in the future,
    [authenticate] fails with a message that includes the unlock
    timestamp and logs [login_blocked]; the users document (every field
    of every record) and the session are left as they were, whatever the
    password. *)
Theorem authenticate_locked_frame (P : Platform) (uname password : string)
    (remote_ip : option string) (w : World) (user : User)
    (until : string) :
  known_user w uname user ->
  locked_in w user until ->
  fst (authenticate uname password remote_ip w)
    = Ret (false, "Account locked until " ++ until ++ " UTC.") /\
  users_file (snd (authenticate uname password remote_ip w))
    = users_file w /\
  (exists e,
     logs_file (snd (authenticate uname password remote_ip w))
       = (logs_file w ++ [e])%list /\
     event e = login_blocked /\ log_user_id e = Some (user_id user)) /\
  session (snd (authenticate uname password remote_ip w)) = session w.
Proof.
  intros Known Locked.
  rewrite (authenticate_blocked _ _ _ _ _ _ Known Locked). world_fields.
  repeat split. eexists. repeat split.
Qed.

Lemma authenticate_locked_frame_witness :
  fst (authenticate (P := Reference.platform) "jane.doe.sou.min" "Secret1!"
         None (Examples.jane_world 5 (Some "2025-01-01T00:15:01Z")))
    = Ret (false, "Account locked until 2025-01-01T00:15:01Z UTC.").
Proof.
  apply (authenticate_locked_frame Reference.platform
           "jane.doe.sou.min" "Secret1!" None
           (Examples.jane_world 5 (Some "2025-01-01T00:15:01Z"))
           (Examples.jane 5 (Some "2025-01-01T00:15:01Z"))
           "2025-01-01T00:15:01Z").
  - vm_compute. reflexivity.
  - split; [reflexivity|]. split; [discriminate|].
    exists 1735690501000000. split; vm_compute; reflexivity.
Defined.

(** C4 (as stated) fails for a [locked_until] that carries a UTC offset.
    Jane is locked until 2030-01-01T00:00:00+02:00, five years after the
    call: [fromisoformat] reads an offset-aware datetime, its comparison
    with the naive [datetime.utcnow()] is outside the [try] and raises
    [TypeError].  No failure message is returned and no [login_blocked]
    entry is logged. *)
Lemma authenticate_locked_offset_raises :
  let w := Examples.jane_world 5 (Some "2030-01-01T00:00:00+02:00") in
  Reference.fromisoformat (remove_char "Z" "2030-01-01T00:00:00+02:00")
    = Aware 1893448800000000 /\
  clock w 1 < 1893448800000000 /\
  fst (authenticate (P := Reference.platform) "jane.doe.sou.min" "Secret1!"
         None w) = Raise TypeError /\
  logs_file (snd (authenticate (P := Reference.platform) "jane.doe.sou.min"
                    "Secret1!" None w)) = [].
Proof. repeat split; vm_compute; reflexivity. Qed.

(** C8.  The failure returned for an unknown username and the failure
    returned for a known, active user whose wrong password leaves the
    counter below the threshold are the same value: [False] with the
    message "Invalid credentials.". *)
Theorem authenticate_no_enumeration (P : Platform)
    (uname1 password1 : string) (ip1 : option string) (w1 : World)
    (uname2 password2 : string) (ip2 : option string) (w2 : World)
    (user : User) :
  unknown_user w1 uname1 ->
  known_user w2 uname2 user ->
  active_in w2 user ->
  bcrypt_checkpw password2 (password_hash user) = Some false ->
  failed_logins user + 1 < config.MAX_FAILED_LOGIN ->
  fst (authenticate uname1 password1 ip1 w1)
    = Ret (false, "Invalid credentials.") /\
  fst (authenticate uname2 password2 ip2 w2)
    = fst (authenticate uname1 password1 ip1 w1).
Proof.
  intros Unknown Known Active Bad Below.
  rewrite (authenticate_unknown _ _ _ _ Unknown).
  destruct (authenticate_active uname2 password2 ip2 w2 user Known Active)
    as (i & n & Hi & Deref & ->).
  destruct (check_credentials_fail (data_ref w2) (found_ref w2 i)
              (tick n (after_lookup w2)) password2 (now_of w2) ip2)
    as (Res & _).
  - apply (found_ref_valid w2 i Hi).
  - apply found_ref_other.
  - change (heap (tick n (after_lookup w2))) with (heap (after_lookup w2)).
    rewrite Deref. exact Bad.
  - change (heap (tick n (after_lookup w2))) with (heap (after_lookup w2)).
    rewrite Deref. exact Below.
  - rewrite Res. split; reflexivity.
Qed.

Lemma authenticate_no_enumeration_witness :
  fst (authenticate (P := Reference.platform) "nobody" "guess" None
         (Examples.jane_world 2 None))
    = Ret (false, "Invalid credentials.") /\
  fst (authenticate (P := Reference.platform) "jane.doe.sou.min" "guess"
         None (Examples.jane_world 2 None))
    = fst (authenticate (P := Reference.platform) "nobody" "guess" None
             (Examples.jane_world 2 None)).
Proof.
  apply (authenticate_no_enumeration Reference.platform
           "nobody" "guess" None (Examples.jane_world 2 None)
           "jane.doe.sou.min" "guess" None (Examples.jane_world 2 None)
           (Examples.jane 2 None)).
  - vm_compute. reflexivity.
  - vm_compute. reflexivity.
  - left. reflexivity.
  - vm_compute. reflexivity.
  - vm_compute. reflexivity.
Defined.

(** C9 (as amended).  When [locked_until] is a string that does not
    parse as an ISO timestamp, the parse failure raises nothing: the user
    is treated as not locked and the call is the password check on the
    record found, without a second reading of the clock.  It returns
    with the verdict of [bcrypt.checkpw]; where [bcrypt.checkpw] raises
    [ValueError], as it does in the Active state too, [authenticate]
    raises it, having logged and changed nothing. *)
Theorem authenticate_unparsable_lock (P : Platform)
    (uname password : string) (remote_ip : option string) (w : World)
    (user : User) (lu : string) :
  known_user w uname user ->
  locked_until user = Some lu ->
  fromisoformat (remove_char "Z" lu) = ParseError ->
  (exists i,
     deref (found_ref w i) (heap (after_lookup w)) = user /\
     authenticate uname password remote_ip w
       = check_credentials (data_ref w) (found_ref w i) password (now_of w)
           remote_ip (after_lookup w)) /\
  match bcrypt_checkpw password (password_hash user) with
  | Some ok =>
      exists msg,
        fst (authenticate uname password remote_ip w) = Ret (ok, msg)
  | None =>
      fst (authenticate uname password remote_ip w) = Raise ValueError /\
      same_store w (snd (authenticate uname password remote_ip w))
  end.
Proof.
  intros Known Lu Parse.
  destruct (authenticate_unparsable uname password remote_ip w user lu
              Known Lu Parse) as (i & Hi & Deref & Run).
  split; [exists i; auto|].
  rewrite Run.
  pose proof (check_credentials_cases (data_ref w) (found_ref w i)
                (after_lookup w) password (now_of w) remote_ip
                (found_ref_valid w i Hi) (found_ref_other w i)) as Cases.
  rewrite Deref in Cases.
  destruct (bcrypt_checkpw password (password_hash user)) as [ok|].
  - destruct Cases as (msg & Res & _). exists msg. exact Res.
  - rewrite Cases. split; [reflexivity | repeat split].
Qed.

Lemma authenticate_unparsable_lock_witness :
  exists msg,
    fst (authenticate (P := Reference.platform) "jane.doe.sou.min"
           "Secret1!" None (Examples.jane_world 5 (Some "next week")))
      = Ret (true, msg).
Proof.
  refine (proj2 (authenticate_unparsable_lock Reference.platform
                   "jane.doe.sou.min" "Secret1!" None
                   (Examples.jane_world 5 (Some "next week"))
                   (Examples.jane 5 (Some "next week")) "next week"
                   _ _ _)).
  - vm_compute. reflexivity.
  - reflexivity.
  - vm_compute. reflexivity.
Defined.

(** C9 (as stated) fails where [bcrypt.checkpw] raises, for the password
    check is outside every [try].  Jane's [locked_until] does not parse;
    with a stored [password_hash] that is not a [bcrypt] hash, or with a
    password of 73 characters, [authenticate] raises [ValueError]. *)
Lemma authenticate_unparsable_lock_raises :
  Reference.fromisoformat (remove_char "Z" "next week") = ParseError /\
  fst (authenticate (P := Reference.platform) "jane.doe.sou.min" "Secret1!"
         None
         (Examples.world [Examples.jane_unhashed (Some "next week")]
            (Examples.ticking Examples.new_year) (Examples.stuck 42)))
    = Raise ValueError /\
  String.length Examples.long_password = 73%nat /\
  fst (authenticate (P := Reference.platform) "jane.doe.sou.min"
         Examples.long_password None
         (Examples.jane_world 0 (Some "next week")))
    = Raise ValueError.
Proof. repeat split; vm_compute; reflexivity. Qed.

(** C2 (what the code does).  Jane's stored counter is
    [MAX_FAILED_LOGIN - 1] and she is not locked.  A wrong password is
    answered with the lockout message and logged as [account_locked], but
    the stored record keeps its counter and its null [locked_until]: the
    correct password, one second later, authenticates. *)
Theorem authenticate_lockout_not_persisted :
  let w := Examples.jane_world 4 None in
  let w1 := snd (authenticate (P := Reference.platform)
                   "jane.doe.sou.min" "wrong" None w) in
  fst (authenticate (P := Reference.platform)
         "jane.doe.sou.min" "wrong" None w)
    = Ret (false,
           "Too many failed attempts. Account locked until 2025-01-01T00:15:01Z UTC.")
  /\ map event (logs_file w1) = [account_locked]
  /\ users_file w1 = [Examples.jane 4 None]
  /\ fst (authenticate (P := Reference.platform)
            "jane.doe.sou.min" "Secret1!" None w1)
       = Ret (true, "Authenticated").
Proof. repeat split; vm_compute; reflexivity. Qed.

(** C3 (what the code does).  Jane's stored counter is 3 and she is not
    locked.  The correct password authenticates, fills the session and is
    logged as [login_success], but the stored counter is still 3. *)
Theorem authenticate_success_not_persisted :
  let w := Examples.jane_world 3 None in
  let w1 := snd (authenticate (P := Reference.platform)
                   "jane.doe.sou.min" "Secret1!" None w) in
  fst (authenticate (P := Reference.platform)
         "jane.doe.sou.min" "Secret1!" None w)
    = Ret (true, "Authenticated")
  /\ session w1 = mkSession (Some "jane.doe.sou.min") (Some "Researcher")
                            (Some "MINN250101JD004270")
  /\ map event (logs_file w1) = [login_success]
  /\ map failed_logins (users_file w1) = [3].
Proof. repeat split; vm_compute; reflexivity. Qed.

(** C10 (what the code does).  Jane's lockout window has passed and her
    stored counter is at the threshold.  A wrong password is answered
    with a new lockout time, but the stored [locked_until] is the old
    one and the correct password authenticates at once.
    [unlock_account], which changes the record of the document it saves,
    does reset the stored counter. *)
Theorem authenticate_relock_not_persisted :
  let w := Examples.jane_world 5 (Some "2024-12-31T23:00:00Z") in
  let w1 := snd (authenticate (P := Reference.platform)
                   "jane.doe.sou.min" "wrong" None w) in
  fst (authenticate (P := Reference.platform)
         "jane.doe.sou.min" "wrong" None w)
    = Ret (false,
           "Too many failed attempts. Account locked until 2025-01-01T00:15:02Z UTC.")
  /\ users_file w1 = [Examples.jane 5 (Some "2024-12-31T23:00:00Z")]
  /\ fst (authenticate (P := Reference.platform)
            "jane.doe.sou.min" "Secret1!" None w1)
       = Ret (true, "Authenticated")
  /\ users_file (snd (unlock_account (P := Reference.platform)
                        "MINN250101JD004270" w))
       = [Examples.jane 0 None].
Proof. repeat split; vm_compute; reflexivity. Qed.

(* ================================================================== *)
(** * Creating users *)
(* ================================================================== *)

Lemma NoDup_snoc {A} (l : list A) (x : A) :
  NoDup l -> ~ In x l -> NoDup (l ++ [x]).
Proof.
  induction 1 as [|y l Hy Hl IH]; simpl; intros Hx.
  - constructor; [intros [] | constructor].
  - constructor.
    + rewrite in_app_iff. simpl. intros [In1 | [<- | []]]; tauto.
    + apply IH. tauto.
Qed.

Lemma not_taken_user_id (users : list User) (uid : string) :
  user_id_taken users uid = false -> ~ In uid (map user_id users).
Proof.
  intros Free Hin. apply user_id_taken_In in Hin. congruence.
Qed.

Lemma not_taken_username (users : list User) (name : string) :
  username_taken users name = false -> ~ In name (map username users).
Proof.
  intros Free Hin. apply username_taken_In in Hin. congruence.
Qed.

(** The identity generators load a document of their own and change no
    other. *)
Lemma generate_user_id_loop_heap (fuel : nat) (users : list User)
    (base_date initials : string) :
  forall (attempt : nat) (w : World),
    heap (snd (generate_user_id_loop fuel users base_date initials
                 attempt w)) = heap w.
Proof.
  induction fuel as [|fuel IH]; intros attempt w; simpl; [reflexivity|].
  unfold bind at 1. unfold randbelow, bind, draw, ret. world_fields.
  destruct (user_id_taken users _); cbn [negb]; [|reflexivity].
  destruct (50 <? S attempt)%nat; [|now rewrite IH].
  unfold time_time, bind, utcnow, ret. world_fields.
  destruct (user_id_taken users _); cbn [negb]; [|reflexivity].
  now rewrite IH.
Qed.

Lemma generate_user_id_heap `{Platform} (fuel : nat) (fn ln c : string)
    (w : World) :
  heap (snd (generate_user_id fuel fn ln c w))
    = (heap w ++ [users_file w])%list.
Proof.
  unfold generate_user_id, bind, load_users, users_of, utcnow.
  world_fields. now rewrite generate_user_id_loop_heap.
Qed.

Lemma generate_username_heap (fuel : nat) (fn ln c org : string)
    (w w' : World) (name : string) :
  generate_username fuel fn ln c org w = (Ret name, w') ->
  heap w' = (heap w ++ [users_file w])%list.
Proof.
  unfold generate_username, bind, load_users, users_of. world_fields.
  intros Run. apply generate_username_loop_ret in Run.
  destruct Run as (-> & _). reflexivity.
Qed.

(** What a returning [create_user] has done to the users document. *)
Lemma create_user_ret `{Platform} (fuel : nat)
    (fn ln e c org r pw : string) (w w' : World) (u : User) :
  create_user fuel fn ln e c org r pw w = (Ret u, w') ->
  users_file w' = (users_file w ++ [u])%list /\
  user_id_taken (users_file w) (user_id u) = false /\
  username_taken (users_file w) (username u) = false /\
  email u = e /\ failed_logins u = 0 /\ locked_until u = None.
Proof.
  unfold create_user. unfold bind at 1. unfold load_users.
  unfold bind at 1.
  set (w0 := mkWorld _ _ _ _ _ _ _ _).
  pose proof (generate_user_id_heap fuel fn ln c w0) as Heap1.
  destruct (generate_user_id fuel fn ln c w0) as [[uid| |] w1] eqn:Uid;
    try discriminate.
  apply generate_user_id_ret in Uid. destruct Uid as ((U1 & _) & Free1 & _).
  unfold bind at 1.
  destruct (generate_username fuel fn ln c org w1) as [[name| |] w2] eqn:Un;
    try discriminate.
  pose proof (generate_username_heap _ _ _ _ _ _ _ _ Un) as Heap2.
  apply generate_username_ret in Un. destruct Un as ((U2 & _) & Free2).
  rewrite U1 in Free2. subst w0. world_fields.
  unfold hash_password, bind, draw, utcnow, append_user, save_users,
    append_log, ret, raise.
  world_fields.
  destruct (bcrypt_hashpw pw _) as [hashed|]; [|discriminate].
  intros [= <- <-]. world_fields.
  rewrite Heap2, Heap1.
  rewrite nth_update_nth_eq by (rewrite !length_alloc; lia).
  rewrite !nth_older by (rewrite ?length_alloc; lia).
  rewrite nth_alloc.
  repeat split; assumption.
Qed.

Lemma create_users_unique_from `{Platform} (fuel : nat)
    (reqs : list Signup) :
  forall (w w' : World) (us : list User),
    unique_user_ids (users_file w) ->
    unique_usernames (users_file w) ->
    create_users fuel reqs w = (Ret us, w') ->
    unique_user_ids (users_file w') /\ unique_usernames (users_file w').
Proof.
  induction reqs as [|r reqs IH]; intros w w' us Ids Names; simpl.
  - unfold ret. intros [= _ <-]. auto.
  - unfold bind at 1.
    destruct (create_signup fuel r w) as [[u| |] w1] eqn:One;
      try discriminate.
    apply create_user_ret in One.
    destruct One as (Users & Free1 & Free2 & _).
    unfold bind at 1.
    destruct (create_users fuel reqs w1) as [[us'| |] w2] eqn:Rest;
      try discriminate.
    unfold ret. intros [= _ <-].
    apply (IH w1 w2 us'); [ | | exact Rest];
      unfold unique_user_ids, unique_usernames in *;
      rewrite Users, map_app; simpl; apply NoDup_snoc; auto.
    + now apply not_taken_user_id.
    + now apply not_taken_username.
Qed.

(** What the sign-up route has done when it returns: nothing to the
    file, or one [create_user] for an address no stored record has. *)
Lemma signup_ret `{Platform} (fuel : nat) (f : Form) (w w' : World)
    (r : option User) :
  signup fuel f w = (Ret r, w') ->
  match r with
  | None => users_file w' = users_file w
  | Some u =>
      users_file w' = (users_file w ++ [u])%list /\
      user_id_taken (users_file w) (user_id u) = false /\
      username_taken (users_file w) (username u) = false /\
      find (same_email (email u)) (users_file w) = None
  end.
Proof.
  unfold signup.
  destruct (negb _); [unfold ret; intros [= <- <-]; reflexivity|].
  destruct (negb _); [unfold ret; intros [= <- <-]; reflexivity|].
  unfold find_user_by_email. unfold bind at 1. unfold bind at 1.
  unfold load_users at 1. unfold bind at 1. unfold users_of at 1.
  unfold ret at 1. world_fields. rewrite nth_alloc.
  pose proof (find_index_find (same_email (form_email f)) (users_file w))
    as Found.
  destruct (find_index _ (users_file w)) as [i|]; cbn [option_map].
  - unfold ret. intros [= <- <-]. reflexivity.
  - destruct (String.eqb _ _);
      [unfold ret; intros [= <- <-]; reflexivity|].
    unfold bind at 1.
    destruct (create_user _ _ _ _ _ _ _ _ _) as [[u| |] w1] eqn:Create;
      try discriminate.
    unfold ret. intros [= <- <-].
    apply create_user_ret in Create. world_fields.
    destruct Create as (Users & Free1 & Free2 & Email & _).
    rewrite Email. auto.
Qed.

Lemma fresh_email (users : list User) (u : User) :
  find (same_email (email u)) users = None ->
  ~ In (lower (email u)) (map (fun x => lower (email x)) users).
Proof.
  intros Fresh Hin. apply in_map_iff in Hin. destruct Hin as (x & E & Hx).
  pose proof (find_none _ _ Fresh x Hx) as Ne.
  unfold same_email in Ne. rewrite E, String.eqb_refl in Ne. discriminate.
Qed.

Lemma signups_unique `{Platform} (fuel : nat) (forms : list Form) :
  forall (w w' : World) (rs : list (option User)),
    unique_user_ids (users_file w) ->
    unique_usernames (users_file w) ->
    unique_emails (users_file w) ->
    signups fuel forms w = (Ret rs, w') ->
    unique_user_ids (users_file w') /\ unique_usernames (users_file w') /\
    unique_emails (users_file w').
Proof.
  induction forms as [|f forms IH]; intros w w' rs Ids Names Emails; simpl.
  - unfold ret. intros [= _ <-]. auto.
  - unfold bind at 1.
    destruct (signup fuel f w) as [[r| |] w1] eqn:One; try discriminate.
    apply signup_ret in One.
    unfold bind at 1.
    destruct (signups fuel forms w1) as [[rs'| |] w2] eqn:Rest;
      try discriminate.
    unfold ret. intros [= _ <-].
    apply (IH w1 w2 rs'); [ | | | exact Rest];
      unfold unique_user_ids, unique_usernames, unique_emails in *;
      destruct r as [u|];
      try (rewrite One; assumption);
      destruct One as (Users & Free1 & Free2 & Fresh);
      rewrite Users, map_app; simpl; apply NoDup_snoc; auto.
    + now apply not_taken_user_id.
    + now apply not_taken_username.
    + now apply fresh_email.
Qed.

(** C5 (as amended).  After any sequence of [create_user] operations
    that starts from a store in which user ids and usernames are unique,
    no two records share a [user_id] and no two share a [username].
    Uniqueness of the e-mail addresses, compared case-insensitively, is
    kept by the sign-up route, which calls [create_user] only for an
    address that [find_user_by_email] does not find: after any sequence
    of sign-ups the three uniqueness properties hold. *)
Theorem create_users_unique (P : Platform) (fuel : nat) :
  (forall (reqs : list Signup) (w w' : World) (us : list User),
      unique_user_ids (users_file w) ->
      unique_usernames (users_file w) ->
      create_users fuel reqs w = (Ret us, w') ->
      unique_user_ids (users_file w') /\ unique_usernames (users_file w')) /\
  (forall (forms : list Form) (w w' : World) (rs : list (option User)),
      unique_user_ids (users_file w) ->
      unique_usernames (users_file w) ->
      unique_emails (users_file w) ->
      signups fuel forms w = (Ret rs, w') ->
      unique_user_ids (users_file w') /\ unique_usernames (users_file w') /\
      unique_emails (users_file w')).
Proof.
  split.
  - intros reqs. apply create_users_unique_from.
  - intros forms. apply signups_unique.
Qed.

Lemma create_users_unique_witness :
  (unique_user_ids
     (users_file (snd (create_users (P := Reference.platform) 60
                         [Examples.jane_signup; Examples.john_signup]
                         Examples.empty_world))) /\
   unique_usernames
     (users_file (snd (create_users (P := Reference.platform) 60
                         [Examples.jane_signup; Examples.john_signup]
                         Examples.empty_world)))) /\
  unique_emails
    (users_file (snd (signups (P := Reference.platform) 60
                        [Examples.jane_form; Examples.jane_again_form]
                        Examples.empty_world))).
Proof.
  destruct (create_users_unique Reference.platform 60) as [Plain Route].
  split.
  - apply (Plain [Examples.jane_signup; Examples.john_signup]
             Examples.empty_world _ [Examples.jane 0 None; Examples.john]).
    + constructor.
    + constructor.
    + apply pair_of_fst. vm_compute. reflexivity.
  - apply (Route [Examples.jane_form; Examples.jane_again_form]
             Examples.empty_world _ [Some (Examples.jane 0 None); None]).
    + constructor.
    + constructor.
    + constructor.
    + apply pair_of_fst. vm_compute. reflexivity.
Defined.

(** C5 (as stated) fails for e-mail addresses: [create_user] does not
    look at the addresses in the store.  Jane signing up twice, the
    second time with her address in upper case, leaves two records whose
    addresses are equal case-insensitively. *)
Lemma create_user_duplicate_email :
  unique_user_ids (users_file Examples.empty_world) /\
  unique_usernames (users_file Examples.empty_world) /\
  unique_emails (users_file Examples.empty_world) /\
  exists us w',
    create_users (P := Reference.platform) 60
      [Examples.jane_signup; Examples.jane_again] Examples.empty_world
      = (Ret us, w') /\
    map email (users_file w') = ["jane@x.com"; "Jane@X.com"] /\
    ~ unique_emails (users_file w').
Proof.
  repeat (split; [constructor|]).
  eexists _, _. split; [apply pair_of_fst; vm_compute; reflexivity|].
  split; [vm_compute; reflexivity|].
  intros Dup.
  assert (E : map (fun u => lower (email u))
                (users_file
                   (snd (create_users (P := Reference.platform) 60
                           [Examples.jane_signup; Examples.jane_again]
                           Examples.empty_world)))
              = ["jane@x.com"; "jane@x.com"]) by (vm_compute; reflexivity).
  unfold unique_emails in Dup. rewrite E in Dup.
  inversion Dup as [|x l Hin _]. apply Hin. left. reflexivity.
Qed.


(* ================================================================== *)
(** * Termination of the operations *)
(* ================================================================== *)



Lemma unlock_account_returns `{Platform} (uid : string) (w : World) :
  exists ok w', unlock_account uid w = (Ret ok, w').
Proof.
  unfold unlock_account, bind, ret, load_users, users_of, set_user,
    save_users, append_log, utcnow.
  world_fields.
  destruct (find_index _ _) as [i|]; eexists _, _; reflexivity.
Qed.




(* ================================================================== *)
(** * Password-reset tokens *)
(* ================================================================== *)

(** C6.  The token [generate_reset_token email] issues verifies to
    [email] while the elapsed time is at most [max_age], and to null once
    it exceeds [max_age]; a token whose signature is not the one of its
    payload and issuance time verifies to null as well, the same value;
    the default [max_age] is 3600 seconds. *)
Theorem reset_token_roundtrip
    (sign : string -> string -> string -> Z -> string)
    (SECRET_KEY email : string) (w0 : World) :
  exists token,
    fst (Serializer.generate_reset_token sign SECRET_KEY email w0)
      = Ret token /\
    forall (max_age : Z) (w : World),
      let elapsed := clock w (clock_reads w) / 1000000
                     - clock w0 (clock_reads w0) / 1000000 in
      (elapsed <= max_age ->
       fst (Serializer.verify_reset_token sign SECRET_KEY token
              (Some max_age) w) = Ret (Some email)) /\
      (max_age < elapsed ->
       fst (Serializer.verify_reset_token sign SECRET_KEY token
              (Some max_age) w) = Ret None) /\
      (forall mutated,
         Serializer.signature mutated
           <> sign SECRET_KEY config.PASSWORD_RESET_SALT
                (Serializer.payload mutated) (Serializer.issued mutated) ->
         fst (Serializer.verify_reset_token sign SECRET_KEY mutated
                (Some max_age) w) = Ret None) /\
      Serializer.verify_reset_token sign SECRET_KEY token None w
        = Serializer.verify_reset_token sign SECRET_KEY token (Some 3600) w.
Proof.
  eexists. split; [reflexivity|].
  intros max_age w elapsed. subst elapsed.
  unfold Serializer.verify_reset_token, Serializer.loads, time_time, bind,
    utcnow, ret.
  cbn [Serializer.signature Serializer.payload Serializer.issued fst snd
       clock clock_reads].
  rewrite String.eqb_refl. cbn [fst snd].
  repeat split.
  - intros Fresh. apply Z.leb_le in Fresh. rewrite Fresh. reflexivity.
  - intros Stale. apply Z.leb_gt in Stale. rewrite Stale. reflexivity.
  - intros mutated Bad. apply String.eqb_neq in Bad. rewrite Bad.
    reflexivity.
Qed.

Lemma reset_token_roundtrip_witness :
  fst (Serializer.verify_reset_token Reference.sign "secret"
         (Serializer.mkToken "jane@x.com" 1735689600
            (Reference.sign "secret" config.PASSWORD_RESET_SALT
               "jane@x.com" 1735689600))
         (Some 3600)
         (Examples.world [] (Examples.ticking (Examples.new_year
                                                + 3600 * 1000000))
            (Examples.stuck 42)))
    = Ret (Some "jane@x.com").
Proof.
  destruct (reset_token_roundtrip Reference.sign "secret" "jane@x.com"
              Examples.empty_world) as (token & Issued & Verify).
  vm_compute in Issued. injection Issued as <-.
  apply (Verify 3600
           (Examples.world [] (Examples.ticking (Examples.new_year
                                                  + 3600 * 1000000))
              (Examples.stuck 42))).
  vm_compute. discriminate.
Defined.

(* ================================================================== *)
(** * Further properties of the code *)
(* ================================================================== *)

(** ** Lists and loaded documents *)

Lemma update_nth_twice {A} (i : nat) (f g : A -> A) (l : list A) :
  update_nth i g (update_nth i f l) = update_nth i (fun x => g (f x)) l.
Proof.
  revert i. induction l as [|x l IH]; intros [|i]; simpl; auto.
  now rewrite IH.
Qed.

Lemma update_nth_map {A B} (g : A -> B) (i : nat) (f : A -> A)
    (l : list A) :
  (forall x, g (f x) = g x) -> map g (update_nth i f l) = map g l.
Proof.
  intros Same. revert i.
  induction l as [|x l IH]; intros [|i]; simpl; auto.
  - now rewrite Same.
  - now rewrite IH.
Qed.

Lemma find_index_update (p : User -> bool) (i : nat) (f : User -> User)
    (users : list User) :
  (forall u, p (f u) = p u) ->
  find_index p (update_nth i f users) = find_index p users.
Proof.
  intros Same. revert i.
  induction users as [|u users IH]; intros [|i]; simpl; auto.
  - now rewrite Same.
  - now rewrite IH.
Qed.

Lemma find_index_nth (p : User -> bool) (users : list User) (i : nat) :
  find_index p users = Some i ->
  (i < List.length users)%nat /\ p (nth i users blank_user) = true /\
  find p users = Some (nth i users blank_user).
Proof.
  intros Found. pose proof (find_index_find p users) as F.
  rewrite Found in F. destruct F as [Hi E].
  repeat split; auto. apply find_some in E. apply E.
Qed.

(** In a list without two equal keys, the first record with the key of
    the record at position [i] is that record. *)
Lemma find_index_unique {K} (key : User -> K) (eqb : K -> K -> bool)
    (users : list User) :
  (forall a b, eqb a b = true <-> a = b) ->
  NoDup (map key users) ->
  forall i, (i < List.length users)%nat ->
    find_index (fun u => eqb (key u) (key (nth i users blank_user))) users
      = Some i.
Proof.
  intros Eqb. induction users as [|u users IH]; simpl; intros Nd i Hi;
    [lia|].
  inversion Nd as [|x l Hnotin Nd']; subst.
  destruct i as [|i].
  - rewrite (proj2 (Eqb _ _) eq_refl). reflexivity.
  - destruct (eqb (key u) (key (nth i users blank_user))) eqn:E.
    + exfalso. apply Eqb in E. apply Hnotin. rewrite E.
      apply in_map, nth_In. lia.
    + rewrite IH by (auto; lia). reflexivity.
Qed.

Lemma doc_assign (r : user_ref) (f : User -> User) (h : list (list User)) :
  (ref_doc r < List.length h)%nat ->
  nth (ref_doc r) (assign r f h) []
    = update_nth (ref_pos r) f (nth (ref_doc r) h []).
Proof.
  intros Hd. unfold assign. now rewrite nth_update_nth_eq.
Qed.

Lemma length_assign (r : user_ref) (f : User -> User) (h : list (list User)) :
  List.length (assign r f h) = List.length h.
Proof. apply length_update_nth. Qed.

(** ** [unlock_account] and [reset_password] *)

Lemma unlock_account_spec `{Platform} (uid : string) (w : World) :
  let w' := snd (unlock_account uid w) in
  match find_index (fun u => String.eqb (user_id u) uid) (users_file w) with
  | Some i =>
      fst (unlock_account uid w) = Ret true /\
      users_file w' = update_nth i cleared (users_file w) /\
      logged w w' [mkLog (now_of w) account_unlocked (Some uid) None None
                         None None None (Some "admin") None] /\
      session w' = session w
  | None =>
      fst (unlock_account uid w) = Ret false /\
      users_file w' = users_file w /\ logged w w' [] /\
      session w' = session w
  end.
Proof.
  unfold unlock_account, logged, bind, ret, load_users, users_of, set_user,
    save_users, append_log, utcnow, now_of.
  world_fields. rewrite nth_alloc.
  destruct (find_index _ (users_file w)) as [i|]; world_fields.
  - repeat split.
    change (nth (List.length (heap w))) with
      (nth (A := list User) (ref_doc (mkRef (List.length (heap w)) i))).
    rewrite doc_assign by (rewrite length_assign, length_alloc;
                           cbn [ref_doc]; lia).
    rewrite doc_assign by (rewrite length_alloc; cbn [ref_doc]; lia).
    cbn [ref_doc ref_pos]. rewrite nth_alloc, update_nth_twice.
    reflexivity.
  - repeat split. now rewrite app_nil_r.
Qed.

(** X1.  [unlock_account(user_id)] works on the first record with that
    [user_id]: it sets its [failed_logins] to 0 and its [locked_until]
    to null in the file, leaves every other record and field as it was,
    appends one [account_unlocked] entry and returns [True].  When no
    record has the [user_id] it returns [False] and changes neither the
    file nor the log. *)
Theorem unlock_account_effect (P : Platform) (uid : string) (w : World) :
  let w' := snd (unlock_account uid w) in
  match find_index (fun u => String.eqb (user_id u) uid) (users_file w) with
  | Some i =>
      fst (unlock_account uid w) = Ret true /\
      users_file w' = update_nth i cleared (users_file w) /\
      logged w w' [mkLog (now_of w) account_unlocked (Some uid) None None
                         None None None (Some "admin") None] /\
      session w' = session w
  | None =>
      fst (unlock_account uid w) = Ret false /\
      users_file w' = users_file w /\ logged w w' [] /\
      session w' = session w
  end.
Proof. apply unlock_account_spec. Qed.

Lemma loaded_ref_valid (h : list (list User)) (users : list User) (i : nat) :
  (i < List.length users)%nat ->
  valid_ref (mkRef (List.length h) i) (h ++ [users]).
Proof.
  intros Hi. split; cbn [ref_doc ref_pos].
  - rewrite length_alloc. lia.
  - rewrite nth_alloc. exact Hi.
Qed.

Lemma loaded_ref_deref (h : list (list User)) (users : list User) (i : nat) :
  deref (mkRef (List.length h) i) (h ++ [users]) = nth i users blank_user.
Proof. unfold deref. cbn [ref_doc ref_pos]. now rewrite nth_alloc. Qed.

Lemma reset_password_run `{Platform} (e new_password : string) (w : World) :
  reset_password e new_password w =
  match find_index (same_email e) (users_file w) with
  | Some i =>
      match bcrypt_hashpw new_password (entropy w (entropy_reads w)) with
      | Some hashed =>
          let r := mkRef (List.length (heap w)) i in
          let h :=
            assign r (set_locked_until None)
              (assign r (set_failed_logins 0)
                 (assign r (set_password_hash hashed)
                    (heap w ++ [users_file w]))) in
          (Ret true,
           mkWorld (nth (List.length (heap w)) h [])
             (logs_file w ++
              [mkLog (now_of w) password_reset (Some (user_id (deref r h)))
                     (Some (username (deref r h))) None None None None None
                     None])
             (session w) h (clock w) (S (clock_reads w))
             (entropy w) (S (entropy_reads w)))
      | None =>
          (Raise ValueError,
           mkWorld (users_file w) (logs_file w) (session w)
             (heap w ++ [users_file w]) (clock w) (clock_reads w)
             (entropy w) (S (entropy_reads w)))
      end
  | None =>
      (Ret false,
       mkWorld (users_file w) (logs_file w) (session w)
         (heap w ++ [users_file w]) (clock w) (clock_reads w)
         (entropy w) (entropy_reads w))
  end.
Proof.
  unfold reset_password, hash_password, bind, ret, raise, load_users,
    users_of, set_user, get_user, save_users, append_log, utcnow, draw,
    now_of.
  world_fields. rewrite nth_alloc.
  destruct (find_index _ (users_file w)) as [i|]; [|reflexivity].
  destruct (bcrypt_hashpw new_password _); reflexivity.
Qed.

Lemma reset_password_spec `{Platform} (e new_password : string)
    (w : World) :
  let w' := snd (reset_password e new_password w) in
  match find_index (same_email e) (users_file w) with
  | Some i =>
      let u := nth i (users_file w) blank_user in
      match bcrypt_hashpw new_password (entropy w (entropy_reads w)) with
      | Some hashed =>
          fst (reset_password e new_password w) = Ret true /\
          users_file w'
            = update_nth i (with_new_password hashed) (users_file w) /\
          logged w w' [mkLog (now_of w) password_reset (Some (user_id u))
                             (Some (username u)) None None None None None
                             None] /\
          session w' = session w /\
          entropy_reads w' = S (entropy_reads w)
      | None =>
          fst (reset_password e new_password w) = Raise ValueError /\
          users_file w' = users_file w /\ logged w w' [] /\
          session w' = session w /\
          entropy_reads w' = S (entropy_reads w)
      end
  | None =>
      fst (reset_password e new_password w) = Ret false /\
      users_file w' = users_file w /\ logged w w' [] /\
      session w' = session w /\
      entropy_reads w' = entropy_reads w
  end.
Proof.
  rewrite reset_password_run. unfold logged.
  pose proof (find_index_find (same_email e) (users_file w)) as F.
  destruct (find_index _ (users_file w)) as [i|]; cbv zeta; world_fields.
  - destruct (bcrypt_hashpw new_password _) as [hashed|]; world_fields;
      [|repeat split; now rewrite app_nil_r].
    destruct F as [Hi _].
    pose proof (loaded_ref_valid (heap w) (users_file w) i Hi) as Valid.
    set (r := mkRef (List.length (heap w)) i) in *.
    rewrite !deref_set by (repeat apply valid_ref_set; exact Valid).
    replace (List.length (heap w)) with (ref_doc r) by reflexivity.
    rewrite !doc_assign by (rewrite ?length_assign; apply Valid).
    subst r. rewrite loaded_ref_deref.
    cbn [ref_doc ref_pos user_id username set_locked_until
         set_failed_logins set_password_hash].
    rewrite nth_alloc, !update_nth_twice.
    repeat split.
  - repeat split. now rewrite app_nil_r.
Qed.

(** X2.  [reset_password(email, new_password)] works on the first record
    whose address equals [email] case-insensitively.  When
    [bcrypt.hashpw] hashes the new password, that record gets the hash,
    [failed_logins] 0 and a null [locked_until] in the file; every other
    record and field is as it was; one [password_reset] entry is logged
    and [True] returned.  When [bcrypt.hashpw] raises [ValueError], the
    call raises it and has changed neither the file nor the log.  When
    no address matches it returns [False], changes neither the file nor
    the log, and computes no hash. *)
Theorem reset_password_effect (P : Platform) (e new_password : string)
    (w : World) :
  let w' := snd (reset_password e new_password w) in
  match find_index (same_email e) (users_file w) with
  | Some i =>
      let u := nth i (users_file w) blank_user in
      match bcrypt_hashpw new_password (entropy w (entropy_reads w)) with
      | Some hashed =>
          fst (reset_password e new_password w) = Ret true /\
          users_file w'
            = update_nth i (with_new_password hashed) (users_file w) /\
          logged w w' [mkLog (now_of w) password_reset (Some (user_id u))
                             (Some (username u)) None None None None None
                             None] /\
          session w' = session w /\
          entropy_reads w' = S (entropy_reads w)
      | None =>
          fst (reset_password e new_password w) = Raise ValueError /\
          users_file w' = users_file w /\ logged w w' [] /\
          session w' = session w /\
          entropy_reads w' = S (entropy_reads w)
      end
  | None =>
      fst (reset_password e new_password w) = Ret false /\
      users_file w' = users_file w /\ logged w w' [] /\
      session w' = session w /\
      entropy_reads w' = entropy_reads w
  end.
Proof. apply reset_password_spec. Qed.

(** ** [authenticate]: every call *)

(** For a record found at position [i], the call is blocked, raises, or
    is the password branch. *)
Lemma authenticate_known_cases `{Platform} (uname password : string)
    (remote_ip : option string) (w : World) (i : nat) :
  find_index (has_username uname) (users_file w) = Some i ->
  let user := nth i (users_file w) blank_user in
  (exists lu ts,
      locked_until user = Some lu /\ lu <> "" /\
      fromisoformat (remove_char "Z" lu) = Aware ts /\
      authenticate uname password remote_ip w
        = (Raise TypeError, tick 1 (after_lookup w))) \/
  (exists lu,
      locked_in w user lu /\
      authenticate uname password remote_ip w
        = (Ret (false, msg_locked lu),
           mkWorld (users_file w)
             (logs_file w ++ [log_blocked (now_of w) user remote_ip])
             (session w) (heap (after_lookup w)) (clock w)
             (S (S (clock_reads w))) (entropy w) (entropy_reads w))) \/
  (exists n,
      authenticate uname password remote_ip w
        = check_credentials (data_ref w) (found_ref w i) password (now_of w)
            remote_ip (tick n (after_lookup w))).
Proof.
  intros Found user.
  rewrite authenticate_lookup, Found. cbv zeta. unfold_lockout.
  rewrite !found_ref_deref. fold user.
  destruct (locked_until user) as [lu|] eqn:Lu;
    [|right; right; exists 0%nat; reflexivity].
  destruct (truthy lu) eqn:Truthy;
    [|right; right; exists 0%nat; reflexivity].
  assert (Ne : lu <> "") by (intros ->; discriminate).
  destruct (fromisoformat (remove_char "Z" lu)) as [|ts|ts] eqn:Parse.
  - right; right; exists 0%nat; reflexivity.
  - wsimpl. destruct (clock w (S (clock_reads w)) <? ts) eqn:Cmp.
    + right; left. exists lu. split.
      * repeat split; auto. exists ts. split; [exact Parse|].
        now apply Z.ltb_lt.
      * wsimpl. rewrite !found_ref_deref. fold user. rewrite Lu.
        reflexivity.
    + right; right; exists 1%nat; reflexivity.
  - left. exists lu, ts. repeat split; auto.
Qed.

Lemma authenticate_ret `{Platform} (uname password : string)
    (remote_ip : option string) (w : World) (ok : bool) (msg : string) :
  fst (authenticate uname password remote_ip w) = Ret (ok, msg) ->
  let w' := snd (authenticate uname password remote_ip w) in
  users_file w' = users_file w /\
  (exists e, logged w w' [e] /\ timestamp e = now_of w /\ ip e = remote_ip) /\
  (ok = true ->
   exists user,
     known_user w uname user /\
     bcrypt_checkpw password (password_hash user) = Some true /\
     session w' = session_of user /\ msg = "Authenticated") /\
  (ok = false -> session w' = session w).
Proof.
  intros Res w'. subst w'. unfold logged.
  pose proof (find_index_find (has_username uname) (users_file w)) as F.
  destruct (find_index (has_username uname) (users_file w)) as [i|] eqn:Found.
  - destruct F as [Hi Known].
    destruct (authenticate_known_cases uname password remote_ip w i Found)
      as [(lu & ts & _ & _ & _ & Run) | [(lu & _ & Run) | (n & Run)]];
      rewrite Run in *; world_fields.
    + discriminate.
    + injection Res as <- <-.
      repeat split; try discriminate.
      eexists. repeat split.
    + pose proof (found_ref_valid w i Hi) as Valid.
      pose proof (found_ref_other w i) as Other.
      pose proof (found_ref_deref w i) as Deref.
      set (user := nth i (users_file w) blank_user) in *.
      set (w1 := tick n (after_lookup w)) in *.
      change (heap (after_lookup w)) with (heap w1) in Valid, Deref.
      destruct (bcrypt_checkpw password (password_hash user)) as [[|]|]
        eqn:Pw;
        [ | | rewrite (check_credentials_raises (data_ref w) (found_ref w i)
                        w1 password (now_of w) remote_ip) in Res
                by (rewrite Deref; exact Pw);
              discriminate ].
      * destruct (check_credentials_match (data_ref w) (found_ref w i) w1
                    password (now_of w) remote_ip Valid Other)
          as (R & U & L & S' & _); [rewrite Deref; exact Pw|].
        rewrite R in Res. injection Res as <- <-.
        rewrite U, L, S', Deref. subst w1. cbn [heap tick].
        rewrite data_ref_doc.
        repeat split; try discriminate.
        -- eexists. repeat split.
        -- intros _. exists user. repeat split; auto.
      * destruct (Z_le_gt_dec config.MAX_FAILED_LOGIN
                    (failed_logins user + 1)) as [Reach | Below].
        -- destruct (check_credentials_lock (data_ref w) (found_ref w i) w1
                       password (now_of w) remote_ip Valid Other)
             as (R & U & L & S' & _);
             [rewrite Deref; exact Pw | rewrite Deref; exact Reach |].
           rewrite R in Res. injection Res as <- <-.
           rewrite U, L, S'. subst w1. cbn [heap tick].
           rewrite data_ref_doc.
           repeat split; try discriminate.
           eexists. repeat split.
        -- destruct (check_credentials_fail (data_ref w) (found_ref w i) w1
                       password (now_of w) remote_ip Valid Other)
             as (R & U & L & S' & _);
             [rewrite Deref; exact Pw | rewrite Deref; lia |].
           rewrite R in Res. injection Res as <- <-.
           rewrite U, L, S'. subst w1. cbn [heap tick].
           rewrite data_ref_doc.
           repeat split; try discriminate.
           eexists. repeat split.
  - rewrite (authenticate_unknown _ _ _ _ F) in *. world_fields.
    injection Res as <- <-.
    repeat split; try discriminate.
    eexists. repeat split.
Qed.

(** X3.  [authenticate] returns [True] only for a username that a stored
    record has and a password that [check_password] accepts against the
    hash of that record; the session then carries the username, the role
    and the user id of that record, and the message is "Authenticated". *)
Theorem authenticate_sound (P : Platform) (uname password : string)
    (remote_ip : option string) (w : World) (msg : string) :
  fst (authenticate uname password remote_ip w) = Ret (true, msg) ->
  exists user,
    known_user w uname user /\
    bcrypt_checkpw password (password_hash user) = Some true /\
    session (snd (authenticate uname password remote_ip w))
      = session_of user /\
    msg = "Authenticated".
Proof.
  intros Res. apply authenticate_ret in Res.
  destruct Res as (_ & _ & Ok & _). now apply Ok.
Qed.

Lemma authenticate_sound_witness :
  exists user,
    known_user (Examples.jane_world 3 None) "jane.doe.sou.min" user /\
    Reference.bcrypt_checkpw "Secret1!" (password_hash user) = Some true /\
    session (snd (authenticate (P := Reference.platform) "jane.doe.sou.min"
                    "Secret1!" None (Examples.jane_world 3 None)))
      = session_of user /\
    "Authenticated" = "Authenticated".
Proof.
  apply (authenticate_sound Reference.platform "jane.doe.sou.min"
           "Secret1!" None (Examples.jane_world 3 None) "Authenticated").
  vm_compute. reflexivity.
Defined.

(** X4.  A call of [authenticate] that returns has appended exactly one
    log entry, stamped with the time of the call and the address of the
    client, and has left the records of the users file as they were; a
    call that returns [False] has also left the session as it was. *)
Theorem authenticate_audit (P : Platform) (uname password : string)
    (remote_ip : option string) (w : World) (ok : bool) (msg : string) :
  fst (authenticate uname password remote_ip w) = Ret (ok, msg) ->
  let w' := snd (authenticate uname password remote_ip w) in
  users_file w' = users_file w /\
  (exists e, logged w w' [e] /\ timestamp e = now_of w /\ ip e = remote_ip) /\
  (ok = false -> session w' = session w).
Proof.
  intros Res. apply authenticate_ret in Res.
  destruct Res as (U & L & _ & S'). auto.
Qed.

Lemma authenticate_audit_witness :
  let w := Examples.jane_world 2 None in
  let w' := snd (authenticate (P := Reference.platform)
                   "jane.doe.sou.min" "guess" (Some "10.0.0.7") w) in
  users_file w' = users_file w /\
  (exists e, logged w w' [e] /\
             timestamp e = now_of (P := Reference.platform) w /\
             ip e = Some "10.0.0.7") /\
  (false = false -> session w' = session w).
Proof.
  apply (authenticate_audit Reference.platform "jane.doe.sou.min" "guess"
           (Some "10.0.0.7") (Examples.jane_world 2 None) false
           "Invalid credentials.").
  vm_compute. reflexivity.
Defined.

(** X5.  When the [locked_until] of the record found is a non-empty
    string that [fromisoformat] reads as a datetime with a UTC offset,
    the comparison with [datetime.utcnow()] raises [TypeError]:
    [authenticate] answers nothing, logs nothing and changes neither the
    file nor the session, whatever the password. *)
Theorem authenticate_offset_aware_raises (P : Platform)
    (uname password : string) (remote_ip : option string) (w : World)
    (user : User) (lu : string) (ts : Z) :
  known_user w uname user ->
  locked_until user = Some lu ->
  lu <> "" ->
  fromisoformat (remove_char "Z" lu) = Aware ts ->
  fst (authenticate uname password remote_ip w) = Raise TypeError /\
  same_store w (snd (authenticate uname password remote_ip w)).
Proof.
  intros Known Lu Ne Parse.
  destruct (known_user_index _ _ _ Known) as (i & Found & Hi & Deref).
  rewrite found_ref_deref in Deref.
  destruct (authenticate_known_cases uname password remote_ip w i Found)
    as [(lu' & ts' & _ & _ & _ & Run) | [(lu' & Locked & _) | (n & Run)]].
  - rewrite Run. split; [reflexivity | repeat split].
  - exfalso. rewrite Deref in Locked.
    destruct Locked as (Lu' & _ & ts' & Parse' & _). congruence.
  - exfalso. revert Run.
    rewrite authenticate_lookup, Found. cbv zeta. unfold_lockout.
    rewrite found_ref_deref, Deref, Lu, (truthy_nonempty _ Ne), Parse.
    set (w1 := tick n (after_lookup w)).
    destruct (check_credentials_completes (data_ref w) (found_ref w i) w1
                password (now_of w) remote_ip) as [(ok & msg & R) | R].
    + apply (found_ref_valid w i Hi).
    + apply found_ref_other.
    + intros E. rewrite <- E in R. discriminate.
    + intros E. rewrite <- E in R. discriminate.
Qed.

Lemma authenticate_offset_aware_raises_witness :
  fst (authenticate (P := Reference.platform) "jane.doe.sou.min" "Secret1!"
         None (Examples.jane_world 0 (Some "2030-01-01T00:00:00+02:00")))
    = Raise TypeError.
Proof.
  apply (authenticate_offset_aware_raises Reference.platform
           "jane.doe.sou.min" "Secret1!" None
           (Examples.jane_world 0 (Some "2030-01-01T00:00:00+02:00"))
           (Examples.jane 0 (Some "2030-01-01T00:00:00+02:00"))
           "2030-01-01T00:00:00+02:00" 1893448800000000).
  - vm_compute. reflexivity.
  - reflexivity.
  - discriminate.
  - vm_compute. reflexivity.
Defined.

(** ** How the operations compose *)

(** The correct password of an active, known user authenticates. *)
Lemma login_succeeds `{Platform} (uname password : string)
    (remote_ip : option string) (w : World) (user : User) :
  known_user w uname user ->
  active_in w user ->
  bcrypt_checkpw password (password_hash user) = Some true ->
  fst (authenticate uname password remote_ip w)
    = Ret (true, "Authenticated") /\
  session (snd (authenticate uname password remote_ip w)) = session_of user.
Proof.
  intros Known Active Pw.
  destruct (authenticate_active uname password remote_ip w user Known Active)
    as (i & n & Hi & Deref & ->).
  destruct (check_credentials_match (data_ref w) (found_ref w i)
              (tick n (after_lookup w)) password (now_of w) remote_ip)
    as (R & _ & _ & S' & _).
  - apply (found_ref_valid w i Hi).
  - apply found_ref_other.
  - change (heap (tick n (after_lookup w))) with (heap (after_lookup w)).
    rewrite Deref. exact Pw.
  - change (heap (tick n (after_lookup w))) with (heap (after_lookup w))
      in S'.
    rewrite Deref in S'. auto.
Qed.

(** A record changed in place is still the one its username finds. *)
Lemma known_user_update (w w' : World) (uname : string) (user : User)
    (i : nat) (f : User -> User) :
  find_index (has_username uname) (users_file w) = Some i ->
  nth i (users_file w) blank_user = user ->
  (forall u, username (f u) = username u) ->
  users_file w' = update_nth i f (users_file w) ->
  known_user w' uname (f user).
Proof.
  intros Found Nth Same Users. unfold known_user. rewrite Users.
  assert (Found' : find_index (has_username uname)
                     (update_nth i f (users_file w)) = Some i).
  { rewrite find_index_update; [exact Found|].
    intros u. unfold has_username. now rewrite Same. }
  destruct (find_index_nth _ _ _ Found) as (Hi & _).
  destruct (find_index_nth _ _ _ Found') as (_ & _ & ->).
  rewrite nth_update_nth_eq by exact Hi. now rewrite Nth.
Qed.

(** X6.  After [unlock_account] for the user id of a known user, in a
    store whose user ids are unique, [authenticate] with that user's
    username and correct password succeeds, whatever [locked_until] and
    [failed_logins] held before. *)
Theorem unlock_then_login (P : Platform) (uname password : string)
    (remote_ip : option string) (w : World) (user : User) :
  known_user w uname user ->
  unique_user_ids (users_file w) ->
  bcrypt_checkpw password (password_hash user) = Some true ->
  fst (unlock_account (user_id user) w) = Ret true /\
  fst (authenticate uname password remote_ip
         (snd (unlock_account (user_id user) w)))
    = Ret (true, "Authenticated").
Proof.
  intros Known Unique Pw.
  destruct (find_index_some _ _ _ Known) as (i & Found & Hi & Nth).
  pose proof (find_index_unique user_id String.eqb (users_file w)
                String.eqb_eq Unique i Hi) as ById.
  rewrite Nth in ById.
  pose proof (unlock_account_spec (user_id user) w) as Effect.
  cbv zeta in Effect. rewrite ById in Effect.
  destruct Effect as (R & Users & _ & _).
  split; [exact R|].
  apply (login_succeeds uname password remote_ip _ (cleared user)).
  - apply (known_user_update w _ uname user i cleared); auto.
  - left. reflexivity.
  - exact Pw.
Qed.

Lemma unlock_then_login_witness :
  fst (authenticate (P := Reference.platform) "jane.doe.sou.min" "Secret1!"
         None
         (snd (unlock_account (P := Reference.platform)
                 (user_id (Examples.jane 7 (Some "2025-01-01T00:15:01Z")))
                 (Examples.jane_world 7 (Some "2025-01-01T00:15:01Z")))))
    = Ret (true, "Authenticated").
Proof.
  apply (unlock_then_login Reference.platform "jane.doe.sou.min" "Secret1!"
           None (Examples.jane_world 7 (Some "2025-01-01T00:15:01Z"))
           (Examples.jane 7 (Some "2025-01-01T00:15:01Z"))).
  - vm_compute. reflexivity.
  - repeat constructor. intros [].
  - vm_compute. reflexivity.
Defined.

(** X7.  After [reset_password(email, new_password)] for the address of
    a stored record, in a store whose usernames are unique,
    [authenticate] with the username of that record and the new
    password succeeds, whatever the lockout state was, provided
    [bcrypt] hashes the new password and [check_password] accepts a
    password against the hash [hash_password] has made of it. *)
Theorem reset_then_login (P : Platform) (e new_password : string)
    (remote_ip : option string) (w : World) (user : User) :
  find (same_email e) (users_file w) = Some user ->
  unique_usernames (users_file w) ->
  (forall salt,
      exists hashed,
        bcrypt_hashpw new_password salt = Some hashed /\
        bcrypt_checkpw new_password hashed = Some true) ->
  fst (reset_password e new_password w) = Ret true /\
  fst (authenticate (username user) new_password remote_ip
         (snd (reset_password e new_password w)))
    = Ret (true, "Authenticated").
Proof.
  intros ByEmail Unique Law.
  destruct (find_index_some _ _ _ ByEmail) as (i & Found & Hi & Nth).
  pose proof (find_index_unique username String.eqb (users_file w)
                String.eqb_eq Unique i Hi) as ByName.
  rewrite Nth in ByName.
  destruct (Law (entropy w (entropy_reads w))) as (h & Hash & Accepts).
  pose proof (reset_password_spec e new_password w) as Effect.
  cbv zeta in Effect. rewrite Found, Hash in Effect.
  destruct Effect as (R & Users & _ & _).
  split; [exact R|].
  apply (login_succeeds (username user) new_password remote_ip _
           (with_new_password h user)).
  - apply (known_user_update w _ (username user) user i
             (with_new_password h)); auto.
  - left. reflexivity.
  - exact Accepts.
Qed.


(** ** The reference platform accepts the hashes it makes *)

Lemma string_of_uint_digits (d : Decimal.uint) :
  all_chars is_digit (NilEmpty.string_of_uint d) = true.
Proof. induction d; simpl; auto. Qed.

Lemma str_digits (n : Z) :
  0 <= n -> all_chars is_digit (str n) = true.
Proof.
  intros Hn. unfold str. destruct n as [|p|p]; simpl; try lia;
    try reflexivity.
  apply string_of_uint_digits.
Qed.

Lemma str_no_dollar (n : Z) :
  all_chars (fun c => negb (Ascii.eqb c "$")) (str n) = true.
Proof.
  assert (Digits : forall d,
             all_chars (fun c => negb (Ascii.eqb c "$"))
               (NilEmpty.string_of_uint d) = true)
    by (induction d; simpl; auto).
  unfold str. destruct n as [|p|p]; simpl; auto.
Qed.

Lemma after_dollars_skip (k : nat) (s rest : string) :
  all_chars (fun c => negb (Ascii.eqb c "$")) s = true ->
  Reference.after_dollars (S k) (s ++ String "$" rest)
    = Reference.after_dollars k rest.
Proof.
  induction s as [|c s IH]; simpl; intros NoDollar.
  - reflexivity.
  - apply andb_prop in NoDollar. destruct NoDollar as [Hc Hs].
    apply negb_true_iff in Hc. rewrite Hc. now apply IH.
Qed.

Lemma dollars_app (a b : string) :
  Reference.dollars (a ++ b)
    = (Reference.dollars a + Reference.dollars b)%nat.
Proof.
  induction a as [|x a IH]; simpl; [reflexivity|].
  destruct (Ascii.eqb x "$"); now rewrite IH.
Qed.

Lemma reference_bcrypt_law (plain : string) (salt : Z) (hashed : string) :
  Reference.bcrypt_hashpw plain salt = Some hashed ->
  Reference.bcrypt_checkpw plain hashed = Some true.
Proof.
  unfold Reference.bcrypt_checkpw, Reference.bcrypt_hashpw.
  destruct (Reference.bcrypt_takes plain); [|discriminate].
  intros Made.
  assert (Hashed : hashed = "$2b$" ++ str salt ++ "$" ++ plain)
    by congruence.
  rewrite Hashed. clear Made Hashed.
  assert (Shape : Reference.is_hash ("$2b$" ++ str salt ++ "$" ++ plain)
                  = true).
  { unfold Reference.is_hash.
    change ("$2b$" ++ str salt ++ "$" ++ plain)
      with (String "$" (String "2" (String "b" (String "$"
              (str salt ++ String "$" plain))))).
    cbn [Reference.starts_with Reference.dollars Ascii.eqb Bool.eqb andb].
    rewrite dollars_app. cbn [Reference.dollars Ascii.eqb Bool.eqb].
    apply Nat.leb_le. lia. }
  cbn [andb]. rewrite Shape. f_equal.
  change ("$2b$" ++ str salt ++ "$" ++ plain)
    with (String "$" (String "2" (String "b" (String "$"
            (str salt ++ String "$" plain))))).
  cbn [Reference.after_dollars Ascii.eqb Bool.eqb].
  rewrite after_dollars_skip by apply str_no_dollar.
  destruct plain; apply String.eqb_refl.
Qed.

Lemma reset_then_login_witness :
  fst (authenticate (P := Reference.platform) "jane.doe.sou.min" "Fresh#2"
         None
         (snd (reset_password (P := Reference.platform) "JANE@X.COM"
                 "Fresh#2"
                 (Examples.jane_world 5 (Some "2025-01-01T00:15:01Z")))))
    = Ret (true, "Authenticated").
Proof.
  apply (reset_then_login Reference.platform "JANE@X.COM" "Fresh#2" None
           (Examples.jane_world 5 (Some "2025-01-01T00:15:01Z"))
           (Examples.jane 5 (Some "2025-01-01T00:15:01Z"))).
  - vm_compute. reflexivity.
  - repeat constructor. intros [].
  - intros salt. eexists. split; [reflexivity|].
    now apply (reference_bcrypt_law "Fresh#2" salt).
Defined.

(** ** [create_user] *)

Lemma create_user_record `{Platform} (fuel : nat)
    (fn ln e c org r pw : string) (w w' : World) (u : User) :
  create_user fuel fn ln e c org r pw w = (Ret u, w') ->
  exists salt t hashed,
    bcrypt_hashpw pw salt = Some hashed /\
    u = mkUser (user_id u) (username u) fn ln e c org r
               hashed (isoformat t ++ "Z") 0 None /\
    logged w w'
      [mkLog (isoformat t ++ "Z") user_created (Some (user_id u))
             (Some (username u)) (Some r) None None None None
             (Some (e, c))] /\
    session w' = session w.
Proof.
  unfold create_user. unfold bind at 1. unfold load_users.
  unfold bind at 1.
  set (w0 := mkWorld _ _ _ _ _ _ _ _).
  destruct (generate_user_id fuel fn ln c w0) as [[uid| |] w1] eqn:Uid;
    try discriminate.
  apply generate_user_id_ret in Uid.
  destruct Uid as ((_ & L1 & S1) & _).
  unfold bind at 1.
  destruct (generate_username fuel fn ln c org w1) as [[name| |] w2] eqn:Un;
    try discriminate.
  apply generate_username_ret in Un. destruct Un as ((_ & L2 & S2) & _).
  subst w0. world_fields.
  unfold hash_password, logged, bind, draw, utcnow, append_user, save_users,
    append_log, ret, raise.
  world_fields.
  destruct (bcrypt_hashpw pw (entropy w2 (entropy_reads w2))) as [hashed|]
    eqn:Hash; [|discriminate].
  intros [= <- <-]. world_fields.
  exists (entropy w2 (entropy_reads w2)), (clock w2 (clock_reads w2)), hashed.
  rewrite L2, L1, S2, S1. repeat split. exact Hash.
Qed.

Lemma find_fresh_last (p : User -> bool) (users : list User) (u : User) :
  existsb p users = false -> p u = true ->
  find p (users ++ [u]) = Some u.
Proof.
  induction users as [|x users IH]; simpl; intros None_ Pu.
  - now rewrite Pu.
  - apply orb_false_iff in None_. destruct None_ as [Px Rest].
    rewrite Px. now apply IH.
Qed.

(** X8.  [create_user] puts the record it returns at the end of the
    users file, after the records that were there, unchanged; the record
    has the fields given, the hash of the password, [failed_logins] 0 and
    a null [locked_until], and a username and a user id that no earlier
    record has; one [user_created] entry with the id, the username, the
    role, the address and the country is logged. *)
Theorem create_user_effect (P : Platform) (fuel : nat)
    (fn ln e c org r pw : string) (w w' : World) (u : User) :
  create_user fuel fn ln e c org r pw w = (Ret u, w') ->
  users_file w' = (users_file w ++ [u])%list /\
  user_id_taken (users_file w) (user_id u) = false /\
  username_taken (users_file w) (username u) = false /\
  exists salt t hashed,
    bcrypt_hashpw pw salt = Some hashed /\
    u = mkUser (user_id u) (username u) fn ln e c org r
               hashed (isoformat t ++ "Z") 0 None /\
    logged w w'
      [mkLog (isoformat t ++ "Z") user_created (Some (user_id u))
             (Some (username u)) (Some r) None None None None
             (Some (e, c))].
Proof.
  intros Run.
  destruct (create_user_ret _ _ _ _ _ _ _ _ _ _ _ Run)
    as (Users & Free1 & Free2 & _).
  destruct (create_user_record _ _ _ _ _ _ _ _ _ _ _ Run)
    as (salt & t & hashed & Hash & Rec & Log & _).
  repeat split; auto. exists salt, t, hashed. auto.
Qed.

Lemma create_user_effect_witness :
  users_file (snd (create_user (P := Reference.platform) 5 "John" "Dean"
                     "john@x.com" "SouthAfrica" "" "Investor" "Secret2!"
                     (Examples.world [Examples.jane 0 None]
                        (Examples.frozen Examples.new_year)
                        (Examples.ticking 43))))
    = [Examples.jane 0 None;
       mkUser "MINN250101JD004371" "john.dean.sou" "John" "Dean"
              "john@x.com" "SouthAfrica" "" "Investor" "$2b$1000043$Secret2!"
              "2025-01-01T00:00:00Z" 0 None].
Proof.
  refine (proj1 (create_user_effect Reference.platform 5 "John" "Dean"
                   "john@x.com" "SouthAfrica" "" "Investor" "Secret2!"
                   (Examples.world [Examples.jane 0 None]
                      (Examples.frozen Examples.new_year)
                      (Examples.ticking 43))
                   _ _ _)).
  apply pair_of_fst. vm_compute. reflexivity.
Defined.

(** X9.  A user that [create_user] has just created can log in:
    [authenticate] with the username returned and the password given
    succeeds and opens a session with the role given, provided
    [check_password] accepts a password against the hash
    [hash_password] has made of it. *)
Theorem create_then_login (P : Platform) (fuel : nat)
    (fn ln e c org r pw : string) (remote_ip : option string)
    (w w' : World) (u : User) :
  create_user fuel fn ln e c org r pw w = (Ret u, w') ->
  (forall salt hashed,
      bcrypt_hashpw pw salt = Some hashed ->
      bcrypt_checkpw pw hashed = Some true) ->
  fst (authenticate (username u) pw remote_ip w')
    = Ret (true, "Authenticated") /\
  sess_role (session (snd (authenticate (username u) pw remote_ip w')))
    = Some r.
Proof.
  intros Run Law.
  destruct (create_user_ret _ _ _ _ _ _ _ _ _ _ _ Run)
    as (Users & _ & Free & _ & _ & Unlocked).
  destruct (create_user_record _ _ _ _ _ _ _ _ _ _ _ Run)
    as (salt & t & hashed & Hash & Rec & _).
  destruct (login_succeeds (username u) pw remote_ip w' u) as (R & S').
  - unfold known_user. rewrite Users. apply find_fresh_last.
    + exact Free.
    + unfold has_username. apply String.eqb_refl.
  - left. exact Unlocked.
  - rewrite Rec. cbn [password_hash]. now apply (Law salt).
  - split; [exact R|]. rewrite S', Rec. reflexivity.
Qed.

Lemma create_then_login_witness :
  fst (authenticate (P := Reference.platform) "jane.doe.sou.min" "Secret1!"
         None
         (snd (create_user (P := Reference.platform) 5 "Jane" "Doe"
                 "jane@x.com" "SouthAfrica" "MINN" "Researcher" "Secret1!"
                 Examples.empty_world)))
    = Ret (true, "Authenticated").
Proof.
  apply (create_then_login Reference.platform 5 "Jane" "Doe" "jane@x.com"
           "SouthAfrica" "MINN" "Researcher" "Secret1!" None
           Examples.empty_world _ (Examples.jane 0 None)).
  - apply pair_of_fst. vm_compute. reflexivity.
  - apply reference_bcrypt_law.
Defined.

(** ** Generated usernames *)

Lemma generate_username_loop_first (users : list User) (base : string)
    (fuel : nat) :
  forall (i : nat) (w w' : World) (name : string),
    (forall k, (k < i)%nat ->
               username_taken users (username_candidate base k) = true) ->
    generate_username_loop fuel users base (username_candidate base i)
      (S i) w = (Ret name, w') ->
    exists j,
      name = username_candidate base j /\
      username_taken users name = false /\
      forall k, (k < j)%nat ->
                username_taken users (username_candidate base k) = true.
Proof.
  induction fuel as [|fuel IH]; intros i w w' name Before; simpl;
    destruct (username_taken users (username_candidate base i)) eqn:Taken;
    simpl; try discriminate.
  - intros [= <- <-]. exists i. auto.
  - apply (IH (S i)). intros k Hk.
    destruct (Nat.eq_dec k i) as [-> | Ne]; [exact Taken | apply Before; lia].
  - intros [= <- <-]. exists i. auto.
Qed.

(** X10.  [generate_username] returns the base name
    [firstname.lastname.countrycode[.orgshort]] when no record has it,
    and otherwise the base followed by the smallest integer, from 1 on,
    that makes a username no record has. *)
Theorem generate_username_first_free (fuel : nat) (fn ln c org : string)
    (w w' : World) (name : string) :
  generate_username fuel fn ln c org w = (Ret name, w') ->
  exists j,
    name = username_candidate (username_base fn ln c org) j /\
    username_taken (users_file w) name = false /\
    forall k, (k < j)%nat ->
      username_taken (users_file w)
        (username_candidate (username_base fn ln c org) k) = true.
Proof.
  unfold generate_username, bind, load_users, users_of.
  world_fields. rewrite nth_alloc. intros Run.
  apply (generate_username_loop_first _ _ _ 0%nat) in Run; [exact Run|].
  intros k Hk. lia.
Qed.

Lemma generate_username_first_free_witness :
  exists j,
    "jane.doe.sou.min1"
      = username_candidate
          (username_base "Jane" "Doe" "SouthAfrica" "MINN") j /\
    username_taken (users_file Examples.one_collision) "jane.doe.sou.min1"
      = false /\
    forall k, (k < j)%nat ->
      username_taken (users_file Examples.one_collision)
        (username_candidate
           (username_base "Jane" "Doe" "SouthAfrica" "MINN") k) = true.
Proof.
  apply (generate_username_first_free 3 "Jane" "Doe" "SouthAfrica" "MINN"
           Examples.one_collision
           (snd (generate_username 3 "Jane" "Doe" "SouthAfrica" "MINN"
                   Examples.one_collision))).
  apply pair_of_fst. vm_compute. reflexivity.
Defined.

Lemma all_chars_app (p : ascii -> bool) (a b : string) :
  all_chars p (a ++ b) = all_chars p a && all_chars p b.
Proof.
  induction a as [|x a IH]; simpl; [reflexivity|].
  now rewrite IH, andb_assoc.
Qed.

Lemma all_chars_weaken (p q : ascii -> bool) (s : string) :
  (forall c, p c = true -> q c = true) ->
  all_chars p s = true -> all_chars q s = true.
Proof.
  intros Imp. induction s as [|x s IH]; simpl; [reflexivity|].
  intros Hs. apply andb_prop in Hs. destruct Hs as [Hx Hs].
  now rewrite (Imp _ Hx), IH.
Qed.

Lemma take_cons (k : nat) (c : ascii) (s : string) :
  take (S k) (String c s) = String c (take k s).
Proof. reflexivity. Qed.

Lemma all_chars_take (p : ascii -> bool) (k : nat) (s : string) :
  all_chars p s = true -> all_chars p (take k s) = true.
Proof.
  revert k. induction s as [|x s IH]; intros [|k]; try reflexivity.
  rewrite take_cons. simpl.
  intros Hs. apply andb_prop in Hs. destruct Hs as [Hx Hs].
  now rewrite Hx, IH.
Qed.

(** A lower-cased character that is alphanumeric is a lower-case letter
    or a digit. *)
Lemma lower_alnum_char (c : ascii) :
  isalnum (lower_char c) = true -> username_char (lower_char c) = true.
Proof.
  destruct c as [[|] [|] [|] [|] [|] [|] [|] [|]]; vm_compute;
    intros E; (exact E || reflexivity).
Qed.

Lemma normalized_chars (s : string) :
  all_chars username_char (filter_chars isalnum (lower s)) = true.
Proof.
  unfold lower. induction s as [|c s IH]; simpl; [reflexivity|].
  destruct (isalnum (lower_char c)) eqn:Alnum; [|exact IH].
  simpl. now rewrite (lower_alnum_char _ Alnum), IH.
Qed.

Lemma username_base_chars (fn ln c org : string) :
  all_chars username_char (username_base fn ln c org) = true.
Proof.
  unfold username_base.
  assert (Org : all_chars username_char
                  (if truthy org
                   then take 3 (filter_chars isalnum (lower org)) else "")
                = true)
    by (destruct (truthy org);
        [apply all_chars_take, normalized_chars | reflexivity]).
  destruct (truthy (if truthy org then _ else _));
    rewrite !all_chars_app, !normalized_chars,
      ?(all_chars_take _ 3 _ (normalized_chars c)), ?Org; reflexivity.
Qed.

(** X11.  For names, a country and an organisation written in ASCII, a
    generated username is made of lower-case ASCII letters, digits and
    dots only, whatever other characters (spaces, hyphens, apostrophes,
    capitals) the four strings hold. *)
Theorem generate_username_alphabet (fuel : nat) (fn ln c org : string)
    (w w' : World) (name : string) :
  isascii fn = true -> isascii ln = true ->
  isascii c = true -> isascii org = true ->
  generate_username fuel fn ln c org w = (Ret name, w') ->
  all_chars username_char name = true.
Proof.
  intros _ _ _ _ Run. apply generate_username_first_free in Run.
  destruct Run as (j & -> & _).
  destruct j as [|j]; simpl; [apply username_base_chars|].
  rewrite all_chars_app, username_base_chars. simpl.
  apply (all_chars_weaken is_digit).
  - intros ch Hd. unfold username_char. rewrite Hd.
    now rewrite orb_true_r.
  - apply str_digits. lia.
Qed.

Lemma generate_username_alphabet_witness :
  all_chars username_char "annemarie.obrien.cot.un" = true.
Proof.
  apply (generate_username_alphabet 3 "Anne-Marie" "O'Brien"
           "Cote d'Ivoire" "U.N." Examples.empty_world
           (snd (generate_username 3 "Anne-Marie" "O'Brien" "Cote d'Ivoire"
                   "U.N." Examples.empty_world))).
  - reflexivity.
  - reflexivity.
  - reflexivity.
  - reflexivity.
  - apply pair_of_fst. vm_compute. reflexivity.
Defined.

(** ** Generated user ids *)

Lemma append_assoc (a b c : string) : (a ++ b) ++ c = a ++ (b ++ c).
Proof. induction a as [|x a IH]; simpl; [reflexivity | now rewrite IH]. Qed.

Lemma zeros_digits (k : nat) : all_chars is_digit (zeros k) = true.
Proof. induction k; simpl; auto. Qed.

Lemma zfill_digits (k : nat) (n : Z) :
  0 <= n -> all_chars is_digit (zfill k (str n)) = true.
Proof.
  intros Hn. unfold zfill.
  now rewrite all_chars_app, zeros_digits, str_digits.
Qed.

Lemma length_four_digits (n : Z) :
  0 <= n < 10000 -> String.length (zfill 4 (str n)) = 4%nat.
Proof.
  intros Hn.
  assert (All : forallb (fun k => Nat.eqb
                 (String.length (zfill 4 (str (Z.of_nat k)))) 4)
                 (seq 0 (Z.to_nat 10000)) = true) by (vm_compute; reflexivity).
  rewrite forallb_forall in All.
  specialize (All (Z.to_nat n)).
  rewrite Z2Nat.id in All by lia.
  apply Nat.eqb_eq, All, in_seq. lia.
Qed.

Lemma nonempty_digits (s : string) :
  (0 < String.length s)%nat -> s <> "".
Proof. destruct s; simpl; [lia | discriminate]. Qed.

Lemma str_not_empty (n : Z) : str n <> "".
Proof.
  destruct (Z.eq_dec n 0) as [-> | Ne]; [discriminate|].
  now apply str_nonempty.
Qed.

Lemma generate_user_id_loop_shape (fuel : nat) (users : list User)
    (base_date initials : string) :
  forall (attempt : nat) (w w' : World) (uid : string),
    generate_user_id_loop fuel users base_date initials attempt w
      = (Ret uid, w') ->
    exists rand4 tail,
      0 <= rand4 < 10000 /\
      uid = core_of base_date initials rand4 ++ tail /\
      tail <> "" /\ all_chars is_digit tail = true.
Proof.
  induction fuel as [|fuel IH]; intros attempt w w' uid; simpl.
  - discriminate.
  - unfold bind at 1. unfold randbelow, bind, draw, ret. world_fields.
    set (rand4 := entropy w (entropy_reads w) mod 10000).
    assert (Range : 0 <= rand4 < 10000)
      by (apply Z.mod_pos_bound; lia).
    destruct (user_id_taken users (with_checksum _)); cbn [negb].
    + destruct (50 <? S attempt)%nat; [|apply IH].
      unfold time_time, bind, utcnow, ret. world_fields.
      destruct (user_id_taken users (with_time _ _)); cbn [negb];
        [apply IH|].
      intros [= <- <-]. exists rand4. eexists. split; [exact Range|].
      split; [reflexivity|]. split; [apply str_not_empty|].
      apply str_digits. apply Z.mod_pos_bound. lia.
    + intros [= <- <-]. exists rand4. eexists. split; [exact Range|].
      split; [reflexivity|].
      assert (Sum : 0 <= checksum_of (core_of base_date initials rand4) < 97)
        by (apply Z.mod_pos_bound; lia).
      split.
      * apply nonempty_digits. rewrite length_two_digits by exact Sum. lia.
      * apply zfill_digits. lia.
Qed.

(** X12.  An identifier returned by [generate_user_id] is the user id of
    no stored record.  It is the prefix [MINN], the date of the call as
    [strftime("%y%m%d")] writes it, the upper-cased first characters of
    the two names, exactly four digits, and a non-empty tail of digits.
    Generating it changes neither file nor the session. *)
Theorem generate_user_id_fresh (P : Platform) (fuel : nat)
    (fn ln c : string) (w w' : World) (uid : string) :
  generate_user_id fuel fn ln c w = (Ret uid, w') ->
  user_id_taken (users_file w) uid = false /\
  same_store w w' /\
  exists block tail,
    uid = config.USER_ID_PREFIX ++
          strftime_yymmdd (clock w (clock_reads w)) ++
          upper (take 1 fn ++ take 1 ln) ++ block ++ tail /\
    String.length block = 4%nat /\ all_chars is_digit block = true /\
    tail <> "" /\ all_chars is_digit tail = true.
Proof.
  intros Run.
  destruct (generate_user_id_ret _ _ _ _ _ _ _ Run) as (Same & Free & _).
  repeat split; try apply Same; auto.
  revert Run.
  unfold generate_user_id, bind, load_users, users_of, utcnow.
  world_fields. rewrite nth_alloc. intros Run.
  apply generate_user_id_loop_shape in Run.
  destruct Run as (rand4 & tail & Range & -> & Ne & Digits).
  exists (zfill 4 (str rand4)), tail.
  unfold core_of. rewrite !append_assoc.
  repeat split; auto.
  - now apply length_four_digits.
  - apply zfill_digits. lia.
Qed.

Lemma generate_user_id_fresh_witness :
  user_id_taken (users_file Examples.one_collision) "MINN250101JD00429600"
    = false.
Proof.
  apply (generate_user_id_fresh Reference.platform 60 "Jane" "Doe"
           "SouthAfrica" Examples.one_collision
           (snd (generate_user_id (P := Reference.platform) 60 "Jane" "Doe"
                   "SouthAfrica" Examples.one_collision))).
  apply pair_of_fst. vm_compute. reflexivity.
Defined.

(** ** The role decorator and the routes *)

Lemma requires_role_run (roles : string + list string) (f : M Reply)
    (w : World) :
  requires_role roles f w =
  match sess_username (session w) with
  | None => (Ret (mkReply [] (Redirect "login")), w)
  | Some _ =>
      if role_allowed (session w) (allowed_roles roles) then f w
      else (Ret (mkReply [(msg_no_permission, "danger")] (Redirect "login")),
            w)
  end.
Proof.
  unfold requires_role, bind, get_session, ret. world_fields.
  destruct (sess_username (session w)); [|reflexivity].
  destruct (role_allowed _ _); reflexivity.
Qed.

Lemma login_post `{Platform} (req : Request) (w : World) :
  req_method req = POST ->
  login req w =
  let out := authenticate (strip (form_get (req_form req) "username" ""))
               (form_get (req_form req) "password" "") (remote_addr req) w in
  match fst out with
  | Ret (true, _) =>
      (Ret (mkReply [("Login successful.", "success")] (Redirect "home")),
       snd out)
  | Ret (false, message) =>
      (Ret (mkReply [(message, "danger")] (Render "login.html")), snd out)
  | Raise e => (Raise e, snd out)
  | OutOfFuel => (OutOfFuel, snd out)
  end.
Proof.
  intros Post. unfold login. rewrite Post. unfold bind. cbv zeta.
  destruct (authenticate _ _ _ w) as [[[[|] msg]| |] w1]; reflexivity.
Qed.

Lemma home_run (w : World) :
  home w =
  (Ret (mkReply []
          (Redirect
             match sess_username (session w), sess_role (session w) with
             | Some _, Some r => dashboard_of r
             | _, _ => "login"
             end)), w).
Proof.
  unfold home, dashboard_of, bind, get_session, ret. world_fields.
  destruct (sess_username (session w)); [|reflexivity].
  destruct (sess_role (session w)) as [r|]; [|reflexivity].
  destruct (String.eqb r "Administrator"); [reflexivity|].
  destruct (String.eqb r "Investor"); [reflexivity|].
  destruct (String.eqb r "Researcher"); reflexivity.
Qed.

(** A successful POST to [login]: the reply and the session. *)
Lemma login_post_success `{Platform} (req : Request) (w : World) (user : User) :
  req_method req = POST ->
  known_user w (strip (form_get (req_form req) "username" "")) user ->
  active_in w user ->
  bcrypt_checkpw (form_get (req_form req) "password" "")
                 (password_hash user) = Some true ->
  fst (login req w)
    = Ret (mkReply [("Login successful.", "success")] (Redirect "home")) /\
  session (snd (login req w)) = session_of user.
Proof.
  intros Post Known Active Pw.
  destruct (login_succeeds _ _ (remote_addr req) w user Known Active Pw)
    as (R & S').
  rewrite (login_post req w Post). cbv zeta. rewrite R.
  split; [reflexivity | exact S'].
Qed.

(** X13.  After a successful POST to [login], [home] sends the user to
    the dashboard of the role of the record: [dashboard_admin],
    [dashboard_investor] or [dashboard_researcher]; a record with any
    other role is sent back to [login]. *)
Theorem login_then_home (P : Platform) (req : Request) (w : World)
    (user : User) :
  req_method req = POST ->
  known_user w (strip (form_get (req_form req) "username" "")) user ->
  active_in w user ->
  bcrypt_checkpw (form_get (req_form req) "password" "")
                 (password_hash user) = Some true ->
  fst (login req w)
    = Ret (mkReply [("Login successful.", "success")] (Redirect "home")) /\
  fst (home (snd (login req w)))
    = Ret (mkReply [] (Redirect (dashboard_of (role user)))).
Proof.
  intros Post Known Active Pw.
  destruct (login_post_success req w user Post Known Active Pw) as (R & S').
  split; [exact R|]. rewrite home_run, S'. reflexivity.
Qed.

Lemma login_then_home_witness :
  fst (home (snd (login (P := Reference.platform)
                    (mkRequest POST [("username", "  jane.doe.sou.min ");
                                     ("password", "Secret1!")] None)
                    (Examples.jane_world 1 None))))
    = Ret (mkReply [] (Redirect "dashboard_researcher")).
Proof.
  apply (login_then_home Reference.platform
           (mkRequest POST [("username", "  jane.doe.sou.min ");
                            ("password", "Secret1!")] None)
           (Examples.jane_world 1 None) (Examples.jane 1 None)).
  - reflexivity.
  - vm_compute. reflexivity.
  - left. reflexivity.
  - vm_compute. reflexivity.
Defined.

(** X14.  After a successful POST to [login], a handler decorated with
    [requires_role(roles)] runs exactly when the role of the record is
    one of [roles]; otherwise the handler is not run, the permission
    message is flashed and the reply is a redirection to [login]. *)
Theorem login_then_gate (P : Platform) (req : Request) (w : World)
    (user : User) (roles : string + list string) (f : M Reply) :
  req_method req = POST ->
  known_user w (strip (form_get (req_form req) "username" "")) user ->
  active_in w user ->
  bcrypt_checkpw (form_get (req_form req) "password" "")
                 (password_hash user) = Some true ->
  let w1 := snd (login req w) in
  requires_role roles f w1 =
  if existsb (String.eqb (role user)) (allowed_roles roles) then f w1
  else (Ret (mkReply [(msg_no_permission, "danger")] (Redirect "login")), w1).
Proof.
  intros Post Known Active Pw w1.
  destruct (login_post_success req w user Post Known Active Pw) as (_ & S').
  rewrite requires_role_run. fold w1 in S'. rewrite S'. reflexivity.
Qed.

Lemma login_then_gate_witness :
  let w1 := snd (login (P := Reference.platform)
                   (mkRequest POST [("username", "jane.doe.sou.min");
                                    ("password", "Secret1!")] None)
                   (Examples.jane_world 1 None)) in
  admin_unlock (P := Reference.platform) "MINN250101JD004270" w1
    = (Ret (mkReply [(msg_no_permission, "danger")] (Redirect "login")), w1).
Proof.
  apply (login_then_gate Reference.platform
           (mkRequest POST [("username", "jane.doe.sou.min");
                            ("password", "Secret1!")] None)
           (Examples.jane_world 1 None) (Examples.jane 1 None)
           (inl "Administrator")).
  - reflexivity.
  - vm_compute. reflexivity.
  - left. reflexivity.
  - vm_compute. reflexivity.
Defined.

(** X15.  A request to [login] that is not answered by the redirection
    to [home] has changed neither the session nor the records of the
    users file: a failed attempt gives no access and ends no session. *)
Theorem login_failure_keeps_session (P : Platform) (req : Request)
    (w : World) (reply : Reply) :
  fst (login req w) = Ret reply ->
  page reply <> Redirect "home" ->
  session (snd (login req w)) = session w /\
  users_file (snd (login req w)) = users_file w.
Proof.
  destruct (req_method req) eqn:Method.
  - unfold login. rewrite Method. unfold ret. auto.
  - rewrite (login_post req w Method). cbv zeta.
    set (uname := strip _). set (password := form_get _ "password" "").
    pose proof (authenticate_ret uname password (remote_addr req) w) as Auth.
    destruct (fst (authenticate uname password (remote_addr req) w))
      as [[[|] msg]| |]; cbn [fst snd]; try discriminate.
    + intros [= <-] Not. exfalso. apply Not. reflexivity.
    + intros _ _. destruct (Auth false msg eq_refl) as (U & _ & _ & S').
      split; [now apply S' | exact U].
Qed.

Lemma login_failure_keeps_session_witness :
  session (snd (login (P := Reference.platform)
                  (mkRequest POST [("username", "jane.doe.sou.min");
                                   ("password", "guess")] None)
                  (Examples.jane_world 1 None)))
    = session (Examples.jane_world 1 None).
Proof.
  apply (login_failure_keeps_session Reference.platform
           (mkRequest POST [("username", "jane.doe.sou.min");
                            ("password", "guess")] None)
           (Examples.jane_world 1 None)
           (mkReply [("Invalid credentials.", "danger")]
                    (Render "login.html"))).
  - vm_compute. reflexivity.
  - discriminate.
Defined.

(** X16.  After [logout], whatever the session was, every handler
    decorated with [requires_role] answers with the redirection to
    [login] without running and without a message, and [home] redirects
    to [login]; [logout] touches neither the users file nor the log. *)
Theorem logout_locks_out (w : World) (roles : string + list string)
    (f : M Reply) :
  let w1 := snd (logout w) in
  requires_role roles f w1 = (Ret (mkReply [] (Redirect "login")), w1) /\
  home w1 = (Ret (mkReply [] (Redirect "login")), w1) /\
  users_file w1 = users_file w /\ logs_file w1 = logs_file w.
Proof.
  cbv zeta. rewrite requires_role_run, home_run.
  unfold logout, bind, set_session, ret. world_fields. auto.
Qed.

(** X17.  [admin_unlock] changes nothing unless the session is logged in
    with the role Administrator: in every other session the world is
    left as it was, the reply is the redirection to [login].  In an
    Administrator session it is [unlock_account] followed by the
    redirection to [dashboard_admin]. *)
Theorem admin_unlock_guard (P : Platform) (uid : string) (w : World) :
  match sess_username (session w), sess_role (session w) with
  | Some _, Some r =>
      if String.eqb r "Administrator" then
        snd (admin_unlock uid w) = snd (unlock_account uid w) /\
        exists flash,
          fst (admin_unlock uid w)
            = Ret (mkReply [flash] (Redirect "dashboard_admin"))
      else
        snd (admin_unlock uid w) = w /\
        page_of (fst (admin_unlock uid w)) = Some (Redirect "login")
  | _, _ =>
      snd (admin_unlock uid w) = w /\
      page_of (fst (admin_unlock uid w)) = Some (Redirect "login")
  end.
Proof.
  unfold admin_unlock. rewrite requires_role_run.
  unfold role_allowed, allowed_roles.
  destruct (sess_username (session w)) as [n|]; [|split; reflexivity].
  destruct (sess_role (session w)) as [r|]; [|split; reflexivity].
  cbn [existsb]. rewrite orb_false_r.
  destruct (String.eqb r "Administrator"); [|split; reflexivity].
  unfold bind.
  destruct (unlock_account_returns uid w) as (ok & w' & ->).
  cbn [fst snd ret]. split; [reflexivity|]. eexists. reflexivity.
Qed.

(** ** Sign-up and the initial administrator *)

(** A sign-up that creates a record has passed every check of the
    route, and is then [create_user] on the same files. *)
Lemma signup_created `{Platform} (fuel : nat) (f : Form) (w w' : World)
    (u : User) :
  signup fuel f w = (Ret (Some u), w') ->
  (truthy (form_first_name f) && truthy (form_last_name f) &&
   truthy (form_email f) && truthy (form_country f) &&
   truthy (form_password f) = true) /\
  form_password f = form_confirm f /\
  find (same_email (form_email f)) (users_file w) = None /\
  form_role f <> "Administrator" /\
  exists w1,
    users_file w1 = users_file w /\ logs_file w1 = logs_file w /\
    session w1 = session w /\
    create_user fuel (form_first_name f) (form_last_name f) (form_email f)
      (form_country f) (form_organization f) (form_role f)
      (form_password f) w1 = (Ret u, w').
Proof.
  unfold signup.
  destruct (truthy (form_first_name f) && _ && _ && _ && _) eqn:Filled;
    cbn [negb]; [|unfold ret; discriminate].
  destruct (String.eqb (form_password f) (form_confirm f)) eqn:Same;
    cbn [negb]; [|unfold ret; discriminate].
  unfold find_user_by_email. unfold bind at 1. unfold bind at 1.
  unfold load_users at 1. unfold bind at 1. unfold users_of at 1.
  unfold ret at 1. world_fields. rewrite nth_alloc.
  pose proof (find_index_find (same_email (form_email f)) (users_file w))
    as Found.
  destruct (find_index _ (users_file w)) as [i|]; cbn [option_map];
    [unfold ret; discriminate|].
  destruct (String.eqb (form_role f) "Administrator") eqn:Admin;
    [unfold ret; discriminate|].
  unfold bind at 1.
  set (w1 := mkWorld _ _ _ _ _ _ _ _).
  destruct (create_user _ _ _ _ _ _ _ _ w1) as [[u'| |] w2] eqn:Create;
    try discriminate.
  unfold ret. intros [= <- <-].
  repeat split; auto.
  - now apply String.eqb_eq.
  - now apply String.eqb_neq.
  - exists w1. repeat split. exact Create.
Qed.

Lemma signup_refused `{Platform} (fuel : nat) (f : Form) (w w' : World) :
  signup fuel f w = (Ret None, w') ->
  users_file w' = users_file w /\ logs_file w' = logs_file w /\
  session w' = session w.
Proof.
  unfold signup.
  destruct (negb _); [unfold ret; intros [= <-]; auto|].
  destruct (negb _); [unfold ret; intros [= <-]; auto|].
  unfold find_user_by_email. unfold bind at 1. unfold bind at 1.
  unfold load_users at 1. unfold bind at 1. unfold users_of at 1.
  unfold ret at 1. world_fields.
  destruct (option_map _ _); [unfold ret; intros [= <-]; auto|].
  destruct (String.eqb _ _); [unfold ret; intros [= <-]; auto|].
  unfold bind at 1.
  destruct (create_user _ _ _ _ _ _ _ _ _) as [[u'| |] w2];
    unfold ret; discriminate.
Qed.

(** X18.  The sign-up route writes a record only when the five required
    fields are filled, the password equals its confirmation, no stored
    address equals the address given case-insensitively and the role is
    not "Administrator"; the record then has the fields of the form,
    and the record is added after the stored ones.  A sign-up that is
    refused changes neither the users file, nor the log, nor the
    session. *)
Theorem signup_checks (P : Platform) (fuel : nat) (f : Form) (w w' : World)
    (r : option User) :
  signup fuel f w = (Ret r, w') ->
  match r with
  | Some u =>
      form_first_name f <> "" /\ form_last_name f <> "" /\
      form_email f <> "" /\ form_country f <> "" /\
      form_password f <> "" /\
      form_password f = form_confirm f /\
      find (same_email (form_email f)) (users_file w) = None /\
      form_role f <> "Administrator" /\
      users_file w' = (users_file w ++ [u])%list /\
      first_name u = form_first_name f /\ last_name u = form_last_name f /\
      email u = form_email f /\ country u = form_country f /\
      organization u = form_organization f /\ role u = form_role f
  | None =>
      users_file w' = users_file w /\ logs_file w' = logs_file w /\
      session w' = session w
  end.
Proof.
  destruct r as [u|]; intros Run; [|now apply signup_refused in Run].
  apply signup_created in Run.
  destruct Run as (Filled & Same & Fresh & NotAdmin & w1 & U1 & _ & _ & Run).
  destruct (create_user_ret _ _ _ _ _ _ _ _ _ _ _ Run) as (Users & _).
  destruct (create_user_record _ _ _ _ _ _ _ _ _ _ _ Run)
    as (salt & t & hashed & _ & Rec & _).
  rewrite U1 in Users.
  apply andb_prop in Filled. destruct Filled as [Filled F5].
  apply andb_prop in Filled. destruct Filled as [Filled F4].
  apply andb_prop in Filled. destruct Filled as [Filled F3].
  apply andb_prop in Filled. destruct Filled as [F1 F2].
  assert (Ne : forall s, truthy s = true -> s <> "")
    by (intros s Hs ->; discriminate).
  repeat split; auto; rewrite Rec; reflexivity.
Qed.

Lemma signup_checks_witness :
  users_file
    (snd (signup (P := Reference.platform) 60 Examples.jane_again_form
            (Examples.world [Examples.jane 0 None]
               (Examples.frozen Examples.new_year) (Examples.stuck 42))))
    = [Examples.jane 0 None].
Proof.
  refine (proj1 (signup_checks Reference.platform 60 Examples.jane_again_form
                   (Examples.world [Examples.jane 0 None]
                      (Examples.frozen Examples.new_year)
                      (Examples.stuck 42))
                   _ None _)).
  apply pair_of_fst. vm_compute. reflexivity.
Defined.

Lemma administrators_app (users : list User) (u : User) :
  role u <> "Administrator" ->
  administrators (users ++ [u]) = administrators users.
Proof.
  intros NotAdmin. unfold administrators. rewrite filter_app. simpl.
  apply String.eqb_neq in NotAdmin. rewrite NotAdmin. apply app_nil_r.
Qed.

Lemma signup_administrators `{Platform} (fuel : nat) (f : Form)
    (w w' : World) (r : option User) :
  signup fuel f w = (Ret r, w') ->
  administrators (users_file w') = administrators (users_file w).
Proof.
  destruct r as [u|]; intros Run.
  - apply signup_created in Run.
    destruct Run as (_ & _ & _ & NotAdmin & w1 & U1 & _ & _ & Run).
    destruct (create_user_ret _ _ _ _ _ _ _ _ _ _ _ Run) as (Users & _).
    destruct (create_user_record _ _ _ _ _ _ _ _ _ _ _ Run)
      as (salt & t & hashed & _ & Rec & _).
    rewrite Users, U1. apply administrators_app. now rewrite Rec.
  - apply signup_refused in Run. destruct Run as (-> & _). reflexivity.
Qed.

Lemma signups_administrators `{Platform} (fuel : nat) (forms : list Form) :
  forall (w w' : World) (rs : list (option User)),
    signups fuel forms w = (Ret rs, w') ->
    administrators (users_file w') = administrators (users_file w).
Proof.
  induction forms as [|f forms IH]; intros w w' rs; simpl.
  - unfold ret. intros [= _ <-]. reflexivity.
  - unfold bind at 1.
    destruct (signup fuel f w) as [[r| |] w1] eqn:One; try discriminate.
    unfold bind at 1.
    destruct (signups fuel forms w1) as [[rs'| |] w2] eqn:Rest;
      try discriminate.
    unfold ret. intros [= _ <-].
    rewrite (IH _ _ _ Rest). now apply signup_administrators in One.
Qed.

(** X19.  No sequence of sign-ups adds, removes or changes a record with
    the role Administrator: the administrators of the users file are the
    same records before and after. *)
Theorem signups_keep_administrators (P : Platform) (fuel : nat)
    (forms : list Form) (w w' : World) (rs : list (option User)) :
  signups fuel forms w = (Ret rs, w') ->
  administrators (users_file w') = administrators (users_file w).
Proof. apply signups_administrators. Qed.

Lemma signups_keep_administrators_witness :
  administrators
    (users_file
       (snd (signups (P := Reference.platform) 60
               [Examples.jane_form;
                mkForm "Eve" "Root" "eve@x.com" "Kenya" "" "Administrator"
                       "Pw#12345" "Pw#12345"]
               Examples.empty_world)))
    = administrators (users_file Examples.empty_world).
Proof.
  apply (signups_keep_administrators Reference.platform 60
           [Examples.jane_form;
            mkForm "Eve" "Root" "eve@x.com" "Kenya" "" "Administrator"
                   "Pw#12345" "Pw#12345"]
           Examples.empty_world _ [Some (Examples.jane 0 None); None]).
  apply pair_of_fst. vm_compute. reflexivity.
Defined.

Lemma existsb_administrators (users : list User) :
  existsb (fun u => String.eqb (role u) "Administrator") users = true <->
  administrators users <> [].
Proof.
  unfold administrators. induction users as [|u users IH]; simpl.
  - split; [discriminate | congruence].
  - destruct (String.eqb (role u) "Administrator"); simpl.
    + split; [discriminate | reflexivity].
    + exact IH.
Qed.

Lemma create_initial_admin_present `{Platform} (fuel : nat) (w : World) :
  administrators (users_file w) <> [] ->
  exists w',
    create_initial_admin fuel w = (Ret tt, w') /\
    users_file w' = users_file w /\ logs_file w' = logs_file w /\
    session w' = session w.
Proof.
  intros Present. apply existsb_administrators in Present.
  unfold create_initial_admin, bind, load_users, users_of.
  world_fields. rewrite nth_alloc, Present. cbn [negb].
  eexists. split; [reflexivity|]. repeat split.
Qed.

(** X20.  When [create_initial_admin] returns, the users file holds a
    record with the role Administrator.  If one was there before,
    nothing was written; if none was, exactly one record was added, with
    the role Administrator and the address admin@example.com.  Calling
    it again changes neither the users file nor the log. *)
Theorem create_initial_admin_once (P : Platform) (fuel : nat)
    (w w' : World) :
  create_initial_admin fuel w = (Ret tt, w') ->
  administrators (users_file w') <> [] /\
  (administrators (users_file w) <> [] ->
   users_file w' = users_file w /\ logs_file w' = logs_file w) /\
  (administrators (users_file w) = [] ->
   exists u, users_file w' = (users_file w ++ [u])%list /\
             role u = "Administrator" /\ email u = "admin@example.com") /\
  (forall fuel',
      exists w'',
        create_initial_admin fuel' w' = (Ret tt, w'') /\
        users_file w'' = users_file w' /\ logs_file w'' = logs_file w').
Proof.
  intros Run.
  assert (Now : administrators (users_file w') <> [] /\
                (administrators (users_file w) <> [] ->
                 users_file w' = users_file w /\
                 logs_file w' = logs_file w) /\
                (administrators (users_file w) = [] ->
                 exists u, users_file w' = (users_file w ++ [u])%list /\
                           role u = "Administrator" /\
                           email u = "admin@example.com")).
  { revert Run.
    unfold create_initial_admin. unfold bind at 1. unfold load_users at 1.
    unfold bind at 1. unfold users_of at 1. world_fields.
    rewrite nth_alloc.
    destruct (existsb _ (users_file w)) eqn:Present; cbn [negb].
    - unfold ret. intros [= <-]. world_fields.
      apply existsb_administrators in Present.
      split; [exact Present|split].
      + intros _. split; reflexivity.
      + intros Absent. congruence.
    - unfold bind at 1.
      set (w0 := mkWorld _ _ _ _ _ _ _ _).
      destruct (create_user _ _ _ _ _ _ _ _ w0) as [[u| |] w1] eqn:Create;
        try discriminate.
      unfold ret. intros [= <-].
      destruct (create_user_ret _ _ _ _ _ _ _ _ _ _ _ Create)
        as (Users & _).
      destruct (create_user_record _ _ _ _ _ _ _ _ _ _ _ Create)
        as (salt & t & hashed & _ & Rec & _).
      subst w0. world_fields.
      assert (Role : role u = "Administrator") by (rewrite Rec; reflexivity).
      assert (Absent : administrators (users_file w) = []).
      { destruct (administrators (users_file w)) eqn:E; [reflexivity|].
        assert (Ne : administrators (users_file w) <> [])
          by (rewrite E; discriminate).
        apply existsb_administrators in Ne. congruence. }
      split; [|split].
      + rewrite Users. unfold administrators. rewrite filter_app. simpl.
        rewrite Role. simpl.
        intros E. apply app_eq_nil in E. destruct E as [_ E]. discriminate.
      + intros Ne. congruence.
      + intros _. exists u. repeat split; auto. rewrite Rec. reflexivity. }
  destruct Now as (Admin & Kept & Added).
  split; [exact Admin|]. split; [exact Kept|]. split; [exact Added|].
  intros fuel'.
  destruct (create_initial_admin_present fuel' w' Admin)
    as (w'' & Again & U & L & _).
  exists w''. auto.
Qed.

Lemma create_initial_admin_once_witness :
  administrators
    (users_file (snd (create_initial_admin (P := Reference.platform) 5
                        (Examples.jane_world 0 None)))) <> [].
Proof.
  apply (create_initial_admin_once Reference.platform 5
           (Examples.jane_world 0 None)).
  apply pair_of_fst. vm_compute. reflexivity.
Defined.
